(** * Tubely upload handlers: a shallow embedding and its properties

    The development follows the three Go sources of the repository:

    - [src/unnamed/part_000]          : [handlerUploadThumbnail]
    - [src/handler_upload_video.go]   : [getVideoAspectRatio], [handlerUploadVideo]
                                        (module [VideoV1] below)
    - [src/unnamed/part_001]          : the later revision of the same file, with
                                        [processVideoForFastStart], [getVideoID],
                                        [getUserID] (module [VideoV2] below)

    A handler is a Go function with early [return]s, [defer]red calls and
    possible run-time panics; it talks to a record store, the local file
    system, an object store and two external programs.  It is embedded as a
    computation in a small monad [M] over a function state (the world plus the
    stack of deferred calls).  Every externally visible action of a call is
    appended to its trace, so that ordering properties are statements about
    that list.

    Left out of the embedding: the log lines ([fmt.Println], [log.Printf])
    and the errors handed to [respondWithError] for logging, which no
    response shows; file offsets, so that [tmpFile.Seek(0, io.SeekStart)] has
    nothing to do; and the closing of the asset file, which the thumbnail
    handler never does. *)

From Stdlib Require Import ZArith NArith String Ascii List Lia.
From Stdlib Require Import Init.Byte.
From stdpp Require Import base option list gmap strings.
Import ListNotations.

Local Open Scope string_scope.
Local Open Scope Z_scope.
Local Open Scope list_scope.

(** ** Data model *)

(** [uuid.UUID] is an array of 16 bytes; it is kept as the 128-bit number
    they spell. *)
Definition UUID : Type := N.
Definition uuid_Nil : UUID := 0%N.

(** Go's [error] interface: [None] is [nil], [Some msg] a non-nil error. *)
Definition error : Type := option string.
Definition is_err (e : error) : bool :=
  match e with Some _ => true | None => false end.

(** Modelled from the spec: the [database.Video] struct is declared outside
    the sources at hand.  Section 3 of the specification gives its fields:
    identifier, owning user identifier, optional thumbnail URL, optional video
    URL, plus unspecified descriptive fields. *)
Record Video : Type := mkVideo {
  ID : UUID;
  UserID : UUID;
  ThumbnailURL : option string;
  VideoURL : option string;
  Descriptive : list (string * string)
}.

(** The zero value [Video{}] that a failed fetch hands back with its error. *)
Definition zeroVideo : Video := mkVideo uuid_Nil uuid_Nil None None [].

(** [video.ThumbnailURL = &url] and [video.VideoURL = &videoUrl]. *)
Definition set_ThumbnailURL (v : Video) (u : string) : Video :=
  mkVideo (ID v) (UserID v) (Some u) (VideoURL v) (Descriptive v).
Definition set_VideoURL (v : Video) (u : string) : Video :=
  mkVideo (ID v) (UserID v) (ThumbnailURL v) (Some u) (Descriptive v).

(** Modelled from the spec: [apiConfig] is declared outside the sources at
    hand; these are the fields the handlers read ([cfg.db] and
    [cfg.s3Client] are the stores of the [World] below). *)
Record apiConfig : Type := mkConfig {
  jwtSecret : string;
  assetsRoot : string;
  s3Bucket : string;
  s3Region : string
}.

(** One file part of a multipart form: the form field it was sent under, the
    [Content-Type] header of the part and its bytes. *)
Record Part : Type := mkPart {
  FormName : string;
  PartContentType : string;
  Data : list byte
}.

Definition part_len (p : Part) : Z := Z.of_nat (length (Data p)).

(** A request body as a reader: the multipart form it carries ([None] when
    the bytes are not a well-formed multipart form) and the byte limit a
    wrapping reader enforces, if any. *)
Record Reader : Type := mkReader {
  r_form : option (list Part);
  r_limit : option Z
}.

Record Request : Type := mkRequest {
  PathValue : string -> string;
  Header : list (string * string);
  Body : Reader
}.

(** [http.MaxBytesReader(w, r, n)] returns a new reader that fails once more
    than [n] bytes are read; it does not touch its argument. *)
Definition MaxBytesReader (r : Reader) (n : Z) : Reader :=
  mkReader (r_form r) (Some n).

Definition body_size (parts : list Part) : Z :=
  fold_right (fun p acc => part_len p + acc) 0 parts.

(** Reading a body to its end and decoding it as a multipart form: fails on
    a malformed body, and on a body longer than the limit of a limited
    reader. *)
Definition read_body (b : Reader) : option (list Part) :=
  match r_form b with
  | None => None
  | Some parts =>
      if match r_limit b with
         | Some n => n <? body_size parts
         | None => false
         end
      then None
      else Some parts
  end.

(** The decoded JSON of the stream probe ([videoData] in the source). *)
Record Stream : Type := mkStream {
  Width : Z;
  Height : Z;
  DisplayAspectRatio : string
}.
Record videoData : Type := mkVideoData { Streams : list Stream }.

(** ** External libraries and the outcomes of external calls

    Everything the handlers call outside the repository is a field of [Env]:
    the pure library functions, and for each fallible external action the
    outcome it has during the request at hand. *)
Record Env : Type := mkEnv {
  (* github.com/google/uuid *)
  uuid_Parse : string -> option UUID;
  uuid_String : UUID -> string;
  (* internal/auth *)
  GetBearerToken : list (string * string) -> option string;
  ValidateJWT : string -> string -> option UUID;
  (* mime.ParseMediaType: the media type it returns ("" when it gives up) *)
  mime_ParseMediaType : string -> string;
  (* encoding/json into [videoData] *)
  json_Unmarshal : list byte -> option videoData;
  filepath_Join : string -> string -> string;
  (* external programs, as functions of the content of the file they are
     pointed at ([None] when there is no such file): [None] is a failed
     [cmd.Run()], [Some out] the standard output (ffprobe) or the file
     written (ffmpeg) *)
  ffprobe : option (list byte) -> option (list byte);
  ffmpeg : option (list byte) -> option (list byte);
  (* crypto/rand *)
  rand_Read : nat -> list byte;
  (* os.CreateTemp: the name of the new file, or failure *)
  createTemp : option string;
  (* failures of the remaining I/O *)
  readAll_fails : bool;
  getVideo_fails : bool;
  create_fails : bool;
  copy_fails : bool;
  open_fails : bool;
  putObject_fails : bool;
  updateVideo_fails : bool
}.

(** ** The world and the trace of a call *)

Inductive Payload : Type :=
| ErrorBody (msg : string)
| VideoBody (v : Video).

Inductive Event : Type :=
| EvRespond (code : Z) (body : Payload)       (* respondWithError / respondWithJSON *)
| EvReadForm (stored : list (Z * bool))       (* the multipart parser read the body and stored
                                                 each file part: its size, whether on disk *)
| EvReadAll (n : Z)                           (* io.ReadAll buffered n bytes *)
| EvGetVideo (id : UUID)
| EvCreateTemp (name : string)
| EvCreate (path : string)
| EvWrite (path : string) (n : Z)
| EvExec (prog : string) (args : list string)
| EvOpen (path : string)
| EvPutObject (bucket key : string) (ok : bool)
| EvUpdateVideo (v : Video) (ok : bool)
| EvRemove (path : string)
| EvClose.

Record World : Type := mkWorld {
  db : list Video;                          (* the record store: rows keyed by [ID] *)
  fs : gmap string (list byte);             (* local files *)
  s3 : gmap string (string * list byte)     (* bucket: key to (content type, bytes) *)
}.

Definition with_fs (f : gmap string (list byte)) (w : World) : World :=
  mkWorld (db w) f (s3 w).
Definition with_s3 (o : gmap string (string * list byte)) (w : World) : World :=
  mkWorld (db w) (fs w) o.
Definition with_db (d : list Video) (w : World) : World :=
  mkWorld d (fs w) (s3 w).

(** Modelled from the spec: the record store ([cfg.db]) is outside the
    sources at hand.  Section 4.2: [fetch(id) -> VideoRecord | NotFound];
    section 6: [UpdateVideo(Record) -> error] persists the record, which is
    taken as replacing the row that has the record's identifier. *)
Definition db_find (id : UUID) (d : list Video) : option Video :=
  List.find (fun v => N.eqb (ID v) id) d.
Definition db_replace (v : Video) (d : list Video) : list Video :=
  List.map (fun x => if N.eqb (ID x) (ID v) then v else x) d.

(** ** The handler monad *)

(** How a statement ends: it falls through to the next one with a value, it
    executes [return], or it panics. *)
Inductive ctl (A : Type) : Type :=
| Next (a : A)
| Return_
| Panic_.
Arguments Next {A} a.
Arguments Return_ {A}.
Arguments Panic_ {A}.

Inductive Deferred : Type :=
| DfCloseUpload                        (* file.Close() on the multipart file *)
| DfCloseFile (f : option string)      (* Close() on an os.File *)
| DfRemove (path : string).            (* os.Remove(path) *)

(** The state of one handler call: the world, the events so far (oldest
    first), the deferred calls (most recent first) and [r.MultipartForm],
    the parsed form cached on the request (each file part with whether it
    went to disk). *)
Record FnState : Type := mkSt {
  st_world : World;
  st_trace : list Event;
  st_defers : list Deferred;
  st_form : option (list (Part * bool))
}.

Definition M (A : Type) : Type := FnState -> ctl A * FnState.

#[global] Instance M_ret : MRet M := fun A a s => (Next a, s).
#[global] Instance M_bind : MBind M := fun A B f m s =>
  match m s with
  | (Next a, s') => f a s'
  | (Return_, s') => (Return_, s')
  | (Panic_, s') => (Panic_, s')
  end.

Definition return_ {A} : M A := fun s => (Return_, s).
Definition panic {A} : M A := fun s => (Panic_, s).
Definition skip : M unit := mret tt.
Definition when_ (b : bool) (m : M unit) : M unit := if b then m else skip.

Definition emit (e : Event) : M unit :=
  fun s => (Next tt, mkSt (st_world s) (st_trace s ++ [e]) (st_defers s) (st_form s)).
Definition act (f : World -> World) : M unit :=
  fun s => (Next tt, mkSt (f (st_world s)) (st_trace s) (st_defers s) (st_form s)).
Definition get_world : M World := fun s => (Next (st_world s), s).
Definition defer (d : Deferred) : M unit :=
  fun s => (Next tt, mkSt (st_world s) (st_trace s) (d :: st_defers s) (st_form s)).

Definition run_deferred (d : Deferred) (wt : World * list Event) : World * list Event :=
  match d with
  | DfCloseUpload => (wt.1, wt.2 ++ [EvClose])
  | DfCloseFile _ => (wt.1, wt.2 ++ [EvClose])
  | DfRemove path => (with_fs (delete path (fs wt.1)) wt.1, wt.2 ++ [EvRemove path])
  end.

Inductive Outcome : Type := Done | Panicked.

(** What a call leaves behind: how it ended, the world and the trace. *)
Record Result : Type := mkResult {
  outcome : Outcome;
  world : World;
  trace : list Event
}.

(** Calling a handler: run the body, then the deferred calls, last in first
    out; they run after a panic as well. *)
Definition call (body : M unit) (w : World) : Result :=
  let '(c, s) := body (mkSt w [] [] None) in
  let wt := fold_left (fun wt d => run_deferred d wt) (st_defers s)
                      (st_world s, st_trace s) in
  mkResult (match c with Panic_ => Panicked | _ => Done end) wt.1 wt.2.

(** ** Library calls *)

Definition StatusOK : Z := 200.
Definition StatusBadRequest : Z := 400.
Definition StatusUnauthorized : Z := 401.
Definition StatusUnsupportedMediaType : Z := 415.
Definition StatusInternalServerError : Z := 500.

(** [x.f] or [x[i]] on a missing [x]: a nil dereference or an index out of
    range is a run-time panic. *)
Definition deref {A} (o : option A) : M A :=
  match o with
  | Some a => mret a
  | None => panic
  end.
Definition index {A} (l : list A) (i : nat) : M A := deref (l !! i).

(** [fmt.Sprintf("%x", key)] on a byte slice: two lower-case hexadecimal
    digits per byte. *)
Definition hex_digit (n : N) : ascii :=
  match n with
  | 0 => "0" | 1 => "1" | 2 => "2" | 3 => "3" | 4 => "4" | 5 => "5"
  | 6 => "6" | 7 => "7" | 8 => "8" | 9 => "9" | 10 => "a" | 11 => "b"
  | 12 => "c" | 13 => "d" | 14 => "e" | _ => "f"
  end%N%char.
Definition hex_byte (b : byte) : string :=
  String (hex_digit (Byte.to_N b / 16)) (String (hex_digit (Byte.to_N b mod 16)) "").
Definition fmt_x (bs : list byte) : string :=
  fold_right (fun b acc => hex_byte b +:+ acc) "" bs.

(** [strings.Split(s, sep)] for a separator of one character. *)
Fixpoint split_from (sep : ascii) (cur s : string) : list string :=
  match s with
  | EmptyString => [cur]
  | String c s' =>
      if Ascii.eqb c sep then cur :: split_from sep "" s'
      else split_from sep (cur +:+ String c "") s'
  end.
Definition strings_Split (s : string) (sep : ascii) : list string :=
  split_from sep "" s.

(** [multipart.Reader.ReadForm(maxMemory)]: a file part that fits what is
    left of the memory budget stays in memory and is charged to the budget,
    any other file part is written to a temporary file on disk. *)
Fixpoint ReadForm (maxMemory : Z) (parts : list Part) : list (Part * bool) :=
  match parts with
  | [] => []
  | p :: ps =>
      if maxMemory <? part_len p then (p, true) :: ReadForm maxMemory ps
      else (p, false) :: ReadForm (maxMemory - part_len p) ps
  end.

Definition defaultMaxMemory : Z := Z.shiftl 32 20.

Definition stored_sizes (stored : list (Part * bool)) : list (Z * bool) :=
  map (fun pb => (part_len pb.1, pb.2)) stored.

(** [r.ParseMultipartForm(maxMemory)]: a no-op once the form is parsed;
    otherwise the whole body is read and decoded, its file parts stored as
    [ReadForm] says. *)
Definition ParseMultipartForm (r : Request) (maxMemory : Z) : M error :=
  fun s =>
    match st_form s with
    | Some _ => (Next None, s)
    | None =>
        match read_body (Body r) with
        | None => (Next (Some "multipart: cannot read the form"), s)
        | Some parts =>
            let stored := ReadForm maxMemory parts in
            (Next None,
             mkSt (st_world s) (st_trace s ++ [EvReadForm (stored_sizes stored)])
                  (st_defers s) (Some stored))
        end
    end.

(** [r.FormFile(key)]: parses the form with the default memory budget when
    that has not happened yet, then hands out the first file sent under
    [key] (the file and its header are both the [Part] here). *)
Definition FormFile (r : Request) (key : string) : M (option Part * error) :=
  err ← ParseMultipartForm r defaultMaxMemory;
  if is_err err then mret (None, err)
  else
    fun s =>
      match List.find (fun pb => String.eqb (FormName pb.1) key)
                      (default [] (st_form s)) with
      | Some pb => (Next (Some pb.1, None), s)
      | None => (Next (None, Some "http: no such file"), s)
      end.

(** The command lines of the two external programs. *)
Definition probe_args (filePath : string) : list string :=
  ["-v"; "error"; "-print_format"; "json"; "-show_streams"; filePath].
Definition remux_args (input output : string) : list string :=
  ["-i"; input; "-c"; "copy"; "-movflags"; "faststart"; "-f"; "mp4"; output].

Section Handlers.

Context (E : Env) (cfg : apiConfig).

(** Modelled from the spec: [respondWithError] and [respondWithJSON] are
    declared outside the sources at hand.  Section 6: a failure is a JSON
    error body with a status code, a success the JSON-serialized record with
    status 200.  Each call is one response event; the call returns to the
    handler, which goes on unless it executes [return] itself. *)
Definition respondWithError (code : Z) (msg : string) : M unit :=
  emit (EvRespond code (ErrorBody msg)).
Definition respondWithJSON (code : Z) (v : Video) : M unit :=
  emit (EvRespond code (VideoBody v)).

Definition uuidParse (s : string) : UUID * error :=
  match uuid_Parse E s with
  | Some u => (u, None)
  | None => (uuid_Nil, Some "invalid UUID")
  end.

Definition authGetBearerToken (h : list (string * string)) : string * error :=
  match GetBearerToken E h with
  | Some t => (t, None)
  | None => ("", Some "no auth header included in request")
  end.

Definition authValidateJWT (token secret : string) : UUID * error :=
  match ValidateJWT E token secret with
  | Some u => (u, None)
  | None => (uuid_Nil, Some "invalid token")
  end.

(** [cfg.db.GetVideo(id)] *)
Definition GetVideo (id : UUID) : M (Video * error) :=
  emit (EvGetVideo id) ;;
  w ← get_world;
  if getVideo_fails E then mret (zeroVideo, Some "database error")
  else
    match db_find id (db w) with
    | Some v => mret (v, None)
    | None => mret (zeroVideo, Some "sql: no rows in result set")
    end.

(** [cfg.db.UpdateVideo(video)] *)
Definition UpdateVideo (v : Video) : M error :=
  if updateVideo_fails E then
    emit (EvUpdateVideo v false) ;; mret (Some "database error")
  else
    emit (EvUpdateVideo v true) ;;
    act (fun w => with_db (db_replace v (db w)) w) ;;
    mret None.

(** [io.ReadAll(file)] *)
Definition ReadAll (file : Part) : M (list byte * error) :=
  if readAll_fails E then mret ([], Some "read error")
  else emit (EvReadAll (part_len file)) ;; mret (Data file, None).

(** [os.Create(path)]: creates or truncates the file. *)
Definition os_Create (path : string) : M (option string * error) :=
  if create_fails E then mret (None, Some "open: permission denied")
  else
    emit (EvCreate path) ;;
    act (fun w => with_fs (<[path := []]> (fs w)) w) ;;
    mret (Some path, None).

(** [os.CreateTemp("", pattern)] *)
Definition os_CreateTemp : M (option string * error) :=
  match createTemp E with
  | None => mret (None, Some "open: no space left on device")
  | Some name =>
      emit (EvCreateTemp name) ;;
      act (fun w => with_fs (<[name := []]> (fs w)) w) ;;
      mret (Some name, None)
  end.

(** [io.Copy(dst, src)] into a freshly created file; writing through a nil
    file fails. *)
Definition io_Copy (dst : option string) (src : list byte) : M (Z * error) :=
  match dst with
  | None => mret (0, Some "invalid argument")
  | Some name =>
      if copy_fails E then mret (0, Some "write error")
      else
        emit (EvWrite name (Z.of_nat (length src))) ;;
        act (fun w => with_fs (<[name := src]> (fs w)) w) ;;
        mret (Z.of_nat (length src), None)
  end.

(** [os.Open(path)] *)
Definition os_Open (path : string) : M (option string * error) :=
  w ← get_world;
  match fs w !! path with
  | None => mret (None, Some "open: no such file or directory")
  | Some _ =>
      if open_fails E then mret (None, Some "open: permission denied")
      else emit (EvOpen path) ;; mret (Some path, None)
  end.

(** [cfg.s3Client.PutObject(ctx, params)]: the body is read from the open
    file; a nil file cannot be read. *)
Definition PutObject (key contentType : string) (body : option string) : M error :=
  w ← get_world;
  match body ≫= (fun name => fs w !! name) with
  | None =>
      emit (EvPutObject (s3Bucket cfg) key false) ;; mret (Some "invalid argument")
  | Some content =>
      if putObject_fails E then
        emit (EvPutObject (s3Bucket cfg) key false) ;; mret (Some "upload failed")
      else
        emit (EvPutObject (s3Bucket cfg) key true) ;;
        act (fun w => with_s3 (<[key := (contentType, content)]> (s3 w)) w) ;;
        mret None
  end.

(** ** [src/unnamed/part_000]: the thumbnail handler *)

Definition handlerUploadThumbnail (r : Request) : M unit :=
  let videoIDString := PathValue r "videoID" in
  let '(videoID, err) := uuidParse videoIDString in
  when_ (is_err err)
    (respondWithError StatusBadRequest "Invalid ID" ;; return_) ;;

  let '(token, err) := authGetBearerToken (Header r) in
  when_ (is_err err)
    (respondWithError StatusUnauthorized "Couldn't find JWT" ;; return_) ;;

  let '(userID, err) := authValidateJWT token (jwtSecret cfg) in
  when_ (is_err err)
    (respondWithError StatusUnauthorized "Couldn't validate JWT" ;; return_) ;;

  let maxMemory := Z.shiftl 10 20 in
  err ← ParseMultipartForm r maxMemory;
  when_ (is_err err)
    (respondWithError StatusBadRequest "Couldn't parse form data" ;; return_) ;;
  '(file, err) ← FormFile r "thumbnail";
  when_ (is_err err)
    (respondWithError StatusInternalServerError "Couldn't get file" ;; return_) ;;
  header ← deref file;
  let mediaType := mime_ParseMediaType E (PartContentType header) in
  when_ (negb (String.eqb mediaType "image/jpeg") && negb (String.eqb mediaType "image/png"))
    (respondWithError StatusUnsupportedMediaType "Unsupported media type" ;; return_) ;;

  '(data, err) ← ReadAll header;
  when_ (is_err err)
    (respondWithError StatusInternalServerError "Couldn't read file" ;; return_) ;;
  '(video, err) ← GetVideo videoID;
  when_ (is_err err)
    (respondWithError StatusInternalServerError "Couldn't get video" ;; return_) ;;
  when_ (negb (N.eqb (UserID video) userID))
    (respondWithError StatusUnauthorized "You are not authorized to upload this video" ;;
     return_) ;;

  ext ← index (strings_Split mediaType "/") 1;
  let filename := uuid_String E videoID +:+ "." +:+ ext in
  '(f, err) ← os_Create (filepath_Join E (assetsRoot cfg) filename);
  when_ (is_err err)
    (respondWithError StatusInternalServerError "Couldn't create file" ;; return_) ;;
  '(_, err) ← io_Copy f data;
  when_ (is_err err)
    (respondWithError StatusInternalServerError "Couldn't write file" ;; return_) ;;

  let url := "http://localhost:8091/assets/" +:+ uuid_String E videoID +:+ "." +:+ ext in
  let video := set_ThumbnailURL video url in
  err ← UpdateVideo video;
  when_ (is_err err)
    (respondWithError StatusInternalServerError "Couldn't update video" ;; return_) ;;

  respondWithJSON StatusOK video.

(** ** [getVideoAspectRatio], identical in both revisions of the video file *)

Definition getVideoAspectRatio (filePath : string) : M (string * error) :=
  emit (EvExec "ffprobe" (probe_args filePath)) ;;
  w ← get_world;
  match ffprobe E (fs w !! filePath) with
  | None => mret ("", Some "exit status 1")
  | Some buffer =>
      match json_Unmarshal E buffer with
      | None => mret ("", Some "invalid character")
      | Some data =>
          stream0 ← index (Streams data) 0;
          let ratio := DisplayAspectRatio stream0 in
          if String.eqb ratio "16:9" then mret ("landscape", None)
          else if String.eqb ratio "9:16" then mret ("portrait", None)
          else mret ("other", None)
      end
  end.

(** [src/unnamed/part_001]: [processVideoForFastStart] *)
Definition processVideoForFastStart (filepath : string) : M (string * error) :=
  let outputFilepath := filepath +:+ ".processing" in
  emit (EvExec "ffmpeg" (remux_args filepath outputFilepath)) ;;
  w ← get_world;
  match ffmpeg E (fs w !! filepath) with
  | None => mret ("", Some "exit status 1")
  | Some out =>
      act (fun w => with_fs (<[outputFilepath := out]> (fs w)) w) ;;
      mret (outputFilepath, None)
  end.

(** [src/unnamed/part_001]: [getVideoID] and [getUserID] *)
Definition getVideoID (param : string) : UUID * error :=
  let '(videoID, err) := uuidParse param in
  if is_err err then (uuid_Nil, err) else (videoID, None).

Definition getUserID (header : list (string * string)) : UUID * error :=
  let '(token, err) := authGetBearerToken header in
  if is_err err then (uuid_Nil, err)
  else
    let '(userID, err) := authValidateJWT token (jwtSecret cfg) in
    if is_err err then (uuid_Nil, err) else (userID, None).

(** The object key and the public URL of an uploaded video. *)
Definition video_key (aspectRatio : string) (key : list byte) : string :=
  aspectRatio +:+ "/" +:+ fmt_x key +:+ ".mp4".
Definition video_url (filename : string) : string :=
  "https://" +:+ s3Bucket cfg +:+ ".s3." +:+ s3Region cfg +:+ ".amazonaws.com/" +:+ filename.

End Handlers.

(** ** [src/handler_upload_video.go]: the first revision of the video handler *)
Module VideoV1.
Section Handler.

Context (E : Env) (cfg : apiConfig).

Definition handlerUploadVideo (r : Request) : M unit :=
  let uploadLimit := Z.shiftl 1 30 in
  let _ := MaxBytesReader (Body r) uploadLimit in

  let videoIDString := PathValue r "videoID" in
  let '(videoID, err) := uuidParse E videoIDString in
  when_ (is_err err)
    (respondWithError StatusBadRequest "Invalid ID" ;; return_) ;;

  let '(token, err) := authGetBearerToken E (Header r) in
  when_ (is_err err)
    (respondWithError StatusUnauthorized "Couldn't find JWT" ;; return_) ;;

  let '(userID, err) := authValidateJWT E token (jwtSecret cfg) in
  when_ (is_err err)
    (respondWithError StatusUnauthorized "Couldn't validate JWT" ;; return_) ;;

  '(video, err) ← GetVideo E videoID;
  when_ (is_err err)
    (respondWithError StatusInternalServerError "Couldn't find video") ;;

  when_ (negb (N.eqb (UserID video) userID))
    (respondWithError StatusUnauthorized "You are not authorized to upload this video") ;;

  '(file, err) ← FormFile r "video";
  header ← deref file;               (* defer file.Close() on a nil file panics *)
  defer DfCloseUpload ;;
  when_ (is_err err)
    (respondWithError StatusInternalServerError "Couldn't get file" ;; return_) ;;
  let mediaType := mime_ParseMediaType E (PartContentType header) in
  when_ (negb (String.eqb mediaType "video/mp4"))
    (respondWithError StatusUnsupportedMediaType "Unsupported media type" ;; return_) ;;
  '(tmpFile, err) ← os_CreateTemp E;
  when_ (is_err err)
    (respondWithError StatusInternalServerError "Couldn't create temp file") ;;
  name ← deref tmpFile;
  defer (DfRemove name) ;;
  defer (DfCloseFile tmpFile) ;;
  '(n, err) ← io_Copy E tmpFile (Data header);
  when_ (is_err err)
    (respondWithError StatusInternalServerError "Couldn't copy file" ;; return_) ;;

  name ← deref tmpFile;
  '(aspectRatio, err) ← getVideoAspectRatio E name;

  let key := rand_Read E 32 in
  let filename := video_key aspectRatio key in
  err ← PutObject E cfg filename mediaType tmpFile;
  when_ (is_err err)
    (respondWithError StatusInternalServerError "Couldn't upload video" ;; return_) ;;
  let videoUrl := video_url cfg filename in
  let video := set_VideoURL video videoUrl in
  err ← UpdateVideo E video;
  when_ (is_err err)
    (respondWithError StatusInternalServerError "Couldn't save video to database" ;;
     return_) ;;
  respondWithJSON StatusOK video ;;
  return_.

End Handler.
End VideoV1.

(** ** [src/unnamed/part_001]: the second revision of the video handler *)
Module VideoV2.
Section Handler.

Context (E : Env) (cfg : apiConfig).

Definition handlerUploadVideo (r : Request) : M unit :=
  let uploadLimit := Z.shiftl 1 30 in
  let _ := MaxBytesReader (Body r) uploadLimit in

  (* Get video ID from URL *)
  let '(videoID, err) := getVideoID E (PathValue r "videoID") in
  when_ (is_err err)
    (respondWithError StatusBadRequest "Invalid video ID" ;; return_) ;;

  (* Get user ID from auth token *)
  let '(userID, err) := getUserID E cfg (Header r) in
  when_ (is_err err)
    (respondWithError StatusUnauthorized "Invalid user ID" ;; return_) ;;

  (* Get video from the database *)
  '(video, err) ← GetVideo E videoID;
  when_ (is_err err)
    (respondWithError StatusInternalServerError "Couldn't find video") ;;

  (* Verify ownership of the video *)
  when_ (negb (N.eqb (UserID video) userID))
    (respondWithError StatusUnauthorized "You are not authorized to upload this video") ;;

  (* Get the uploaded video file *)
  '(file, err) ← FormFile r "video";
  when_ (is_err err)
    (respondWithError StatusInternalServerError "Couldn't get file" ;; return_) ;;
  defer DfCloseUpload ;;

  (* Validate the content type of the upload *)
  header ← deref file;
  let mediaType := mime_ParseMediaType E (PartContentType header) in
  when_ (negb (String.eqb mediaType "video/mp4"))
    (respondWithError StatusUnsupportedMediaType "Unsupported media type" ;; return_) ;;

  (* Create a temporary file for processing *)
  '(tmpFile, err) ← os_CreateTemp E;
  when_ (is_err err)
    (respondWithError StatusInternalServerError "Couldn't create temp file") ;;
  name ← deref tmpFile;
  defer (DfRemove name) ;;
  defer (DfCloseFile tmpFile) ;;

  (* Copy the upload to the temp file and rewind for processing *)
  '(_, err) ← io_Copy E tmpFile (Data header);
  when_ (is_err err)
    (respondWithError StatusInternalServerError "Couldn't copy file" ;; return_) ;;

  (* Get the aspect ratio of the video *)
  name ← deref tmpFile;
  '(aspectRatio, err) ← getVideoAspectRatio E name;
  when_ (is_err err)
    (respondWithError StatusInternalServerError "Couldn't get aspect ratio") ;;

  name ← deref tmpFile;
  '(processedFilename, err) ← processVideoForFastStart E name;
  when_ (is_err err)
    (respondWithError StatusInternalServerError "Couldn't process video") ;;

  '(body, err) ← os_Open E processedFilename;
  when_ (is_err err)
    (respondWithError StatusInternalServerError "Couldn't open fast start processed file") ;;
  defer (DfRemove processedFilename) ;;
  defer (DfCloseFile body) ;;

  (* Upload the video to S3 *)
  let key := rand_Read E 32 in
  let filename := video_key aspectRatio key in
  err ← PutObject E cfg filename mediaType body;
  when_ (is_err err)
    (respondWithError StatusInternalServerError "Couldn't upload video" ;; return_) ;;

  (* Store the video metadata in the database *)
  let videoUrl := video_url cfg filename in
  let video := set_VideoURL video videoUrl in
  err ← UpdateVideo E video;
  when_ (is_err err)
    (respondWithError StatusInternalServerError "Couldn't save video to database" ;;
     return_) ;;

  (* Write the success response *)
  respondWithJSON StatusOK video.

End Handler.
End VideoV2.


(** ** Observations on a call *)

(** The status codes of the responses written during a call, in order; the
    client receives the first one (later [WriteHeader] calls are ignored by
    [net/http]). *)
Definition responses (tr : list Event) : list Z :=
  omap (fun e => match e with EvRespond c _ => Some c | _ => None end) tr.
Definition http_status (tr : list Event) : option Z := head (responses tr).

(** The records handed to the record store for commit, with whether the
    store took them. *)
Definition commits (tr : list Event) : list (Video * bool) :=
  omap (fun e => match e with EvUpdateVideo v ok => Some (v, ok) | _ => None end) tr.

(** The identity a request authenticates as. *)
Definition authenticate (E : Env) (cfg : apiConfig) (r : Request) : option UUID :=
  GetBearerToken E (Header r) ≫= fun token => ValidateJWT E token (jwtSecret cfg).

(** The first file part a request carries under a form field. *)
Definition upload_part (r : Request) (key : string) : option Part :=
  read_body (Body r) ≫= List.find (fun p => String.eqb (FormName p) key).


(** The media type the handlers compare with their allow-list. *)
Definition declared_type (E : Env) (p : Part) : string :=
  mime_ParseMediaType E (PartContentType p).

Definition form_file (key : string) (stored : list (Part * bool)) : option Part :=
  fst <$> List.find (fun pb : Part * bool => String.eqb (FormName pb.1) key) stored.

(** ** Weakest preconditions for handler code *)

Definition wp {A} (m : M A) (Q : ctl A -> FnState -> Prop) (s : FnState) : Prop :=
  Q (m s).1 (m s).2.

(** The postcondition of [m] in [m ≫= f]: go on with [f] after a normal
    end, leave the function after [return] or a panic. *)
Definition kont {A B} (f : A -> M B) (Q : ctl B -> FnState -> Prop)
  : ctl A -> FnState -> Prop :=
  fun c s =>
    match c with
    | Next a => wp (f a) Q s
    | Return_ => Q Return_ s
    | Panic_ => Q Panic_ s
    end.

(** What [call] makes of the end of the body. *)
Definition finish {A} (c : ctl A) (s : FnState) : Result :=
  let wt := fold_left (fun wt d => run_deferred d wt) (st_defers s)
                      (st_world s, st_trace s) in
  mkResult (match c with Panic_ => Panicked | _ => Done end) wt.1 wt.2.

(** ** Kinds of events *)


(** Reading back two hexadecimal digits, for the injectivity of object keys. *)
Definition hex_value (c : ascii) : N :=
  let n := N_of_ascii c in
  if (n <? 58)%N then (n - 48)%N else (n - 87)%N.
Definition unhex_byte (hi lo : ascii) : option byte :=
  Byte.of_N (16 * hex_value hi + hex_value lo).

(** The aspect buckets a video key can start with: the three
    classifications, and the empty string of a failed probe. *)
Definition aspect_buckets : list string := ["landscape"; "portrait"; "other"; ""].

Definition first_char (s : string) : option ascii :=
  match s with
  | String c _ => Some c
  | EmptyString => None
  end.

(** ** A concrete environment for examples

    Stand-ins for the external libraries on the inputs the examples use.
    [ParseMediaType] follows the media-type half of Go's
    [mime.ParseMediaType] (cut at the first semicolon, lower-case, trim,
    check [token "/" token]); the parameters after the semicolon are not
    examined.  [uuid_Parse] reads the canonical 36-character form only.
    Token validation and JSON decoding are tables. *)
Module Fixture.

Definition ToLower_ascii (c : ascii) : ascii :=
  let n := nat_of_ascii c in
  if (65 <=? n)%nat && (n <=? 90)%nat then ascii_of_nat (n + 32) else c.
Fixpoint ToLower (s : string) : string :=
  match s with
  | EmptyString => EmptyString
  | String c s' => String (ToLower_ascii c) (ToLower s')
  end.

Definition isSpace (c : ascii) : bool :=
  let n := nat_of_ascii c in
  (n =? 32)%nat || ((9 <=? n)%nat && (n <=? 13)%nat).
Fixpoint TrimLeft (s : string) : string :=
  match s with
  | String c s' => if isSpace c then TrimLeft s' else s
  | EmptyString => EmptyString
  end.
Fixpoint TrimRight (s : string) : string :=
  match s with
  | EmptyString => EmptyString
  | String c s' =>
      match TrimRight s' with
      | EmptyString => if isSpace c then EmptyString else String c EmptyString
      | t => String c t
      end
  end.
Definition TrimSpace (s : string) : string := TrimRight (TrimLeft s).

Fixpoint before_semicolon (s : string) : string :=
  match s with
  | EmptyString => EmptyString
  | String c s' => if Ascii.eqb c ";" then EmptyString else String c (before_semicolon s')
  end.

(** RFC 2045 token characters: printable ASCII without the tspecials. *)
Definition isTokenChar (c : ascii) : bool :=
  let n := nat_of_ascii c in
  (32 <? n)%nat && (n <? 127)%nat
  && negb (existsb (Ascii.eqb c)
             ["("; ")"; "<"; ">"; "@"; ","; ";"; ":"; "\"; "034"; "/"; "["; "]"; "?"; "="]%char).

Fixpoint consumeToken (s : string) : string * string :=
  match s with
  | EmptyString => (EmptyString, EmptyString)
  | String c s' =>
      if isTokenChar c then let '(t, rest) := consumeToken s' in (String c t, rest)
      else (EmptyString, s)
  end.

Definition checkMediaTypeDisposition (s : string) : bool :=
  let '(typ, rest) := consumeToken s in
  match typ, rest with
  | EmptyString, _ => false
  | _, EmptyString => true
  | _, String c rest' =>
      if Ascii.eqb c "/" then
        let '(subtype, rest'') := consumeToken rest' in
        match subtype, rest'' with
        | EmptyString, _ => false
        | _, EmptyString => true
        | _, _ => false
        end
      else false
  end.

Definition ParseMediaType (v : string) : string :=
  let mediatype := TrimSpace (ToLower (before_semicolon v)) in
  if checkMediaTypeDisposition mediatype then mediatype else "".

Definition hex_val (c : ascii) : option N :=
  let n := N_of_ascii c in
  if (48 <=? n)%N && (n <=? 57)%N then Some (n - 48)%N
  else if (97 <=? n)%N && (n <=? 102)%N then Some (n - 87)%N
  else if (65 <=? n)%N && (n <=? 70)%N then Some (n - 55)%N
  else None.

(** Characters 8, 13, 18 and 23 of the canonical form are dashes, the other
    32 are hexadecimal digits. *)
Fixpoint parse_canonical (pos : nat) (acc : N) (s : string) : option N :=
  match s with
  | EmptyString => if (pos =? 36)%nat then Some acc else None
  | String c s' =>
      if (pos =? 8)%nat || (pos =? 13)%nat || (pos =? 18)%nat || (pos =? 23)%nat then
        if Ascii.eqb c "-" then parse_canonical (S pos) acc s' else None
      else
        match hex_val c with
        | Some d => parse_canonical (S pos) (acc * 16 + d)%N s'
        | None => None
        end
  end.
Definition Parse (s : string) : option UUID := parse_canonical 0 0%N s.

Fixpoint hex_digits (k : nat) (n : N) : string :=
  match k with
  | O => EmptyString
  | S k' => String (hex_digit ((n / 16 ^ N.of_nat k') mod 16)%N) (hex_digits k' n)
  end.
Definition String_of_uuid (u : UUID) : string :=
  let d := hex_digits 32 u in
  substring 0 8 d +:+ "-" +:+ substring 8 4 d +:+ "-" +:+ substring 12 4 d +:+ "-"
  +:+ substring 16 4 d +:+ "-" +:+ substring 20 12 d.

Definition alice : UUID := 161%N.
Definition bob : UUID := 178%N.
Definition vid : UUID := 7%N.
Definition vid_string : string := "00000000-0000-0000-0000-000000000007".

Definition BearerToken (h : list (string * string)) : option string :=
  match List.find (fun kv => String.eqb kv.1 "Authorization") h with
  | Some kv =>
      if String.prefix "Bearer " kv.2 then Some (substring 7 (String.length kv.2 - 7) kv.2)
      else None
  | None => None
  end.

Definition secret : string := "s3cr3t".
Definition JWT (token key : string) : option UUID :=
  if negb (String.eqb key secret) then None
  else if String.eqb token "alice.jwt" then Some alice
  else if String.eqb token "bob.jwt" then Some bob
  else None.

Definition bytes (s : string) : list byte := list_byte_of_string s.

Definition q : string := String "034" EmptyString.
Definition probe_json (ratio : string) : list byte :=
  bytes ("{" +:+ q +:+ "streams" +:+ q +:+ ":[{" +:+ q +:+ "display_aspect_ratio" +:+ q
         +:+ ":" +:+ q +:+ ratio +:+ q +:+ "}]}").
Definition probe_no_streams : list byte := bytes "{}".

Definition bytes_eqb (a b : list byte) : bool :=
  String.eqb (string_of_list_byte a) (string_of_list_byte b).

Definition Unmarshal (b : list byte) : option videoData :=
  if bytes_eqb b (probe_json "16:9") then Some (mkVideoData [mkStream 0 0 "16:9"])
  else if bytes_eqb b (probe_json "9:16") then Some (mkVideoData [mkStream 0 0 "9:16"])
  else if bytes_eqb b (probe_json "4:3") then Some (mkVideoData [mkStream 0 0 "4:3"])
  else if bytes_eqb b probe_no_streams then Some (mkVideoData [])
  else None.

Definition Join (dir file : string) : string := dir +:+ "/" +:+ file.

(** The environment in which the probe answers [probe] and every other
    external call succeeds, the object store apart when [put_fails]. *)
Definition env (probe : option (list byte)) (put_fails : bool) : Env :=
  {| uuid_Parse := Parse;
     uuid_String := String_of_uuid;
     GetBearerToken := BearerToken;
     ValidateJWT := JWT;
     mime_ParseMediaType := ParseMediaType;
     json_Unmarshal := Unmarshal;
     filepath_Join := Join;
     ffprobe := fun _ => probe;
     ffmpeg := fun f => f;
     rand_Read := fun n => repeat x2a n;
     createTemp := Some "/tmp/tubely-upload.mp4123";
     readAll_fails := false;
     getVideo_fails := false;
     create_fails := false;
     copy_fails := false;
     open_fails := false;
     putObject_fails := put_fails;
     updateVideo_fails := false |}.

Definition cfg : apiConfig :=
  {| jwtSecret := secret; assetsRoot := "./assets";
     s3Bucket := "tubely"; s3Region := "us-east-2" |}.

(** The store holds one video, owned by alice. *)
Definition video0 : Video :=
  mkVideo vid alice None None [("title", "Holiday")].
Definition world0 : World := mkWorld [video0] ∅ ∅.

Definition request (token contentType field : string) (data : list byte) : Request :=
  {| PathValue := fun k => if String.eqb k "videoID" then vid_string else "";
     Header := [("Authorization", "Bearer " +:+ token)];
     Body := mkReader (Some [mkPart field contentType data]) None |}.

(** The uploads of the examples: the file, the name of its temporary copy,
    the object keys and URLs that come out. *)
Definition mp4 : list byte := bytes "MP4DATA".
Definition landscape_key : string :=
  "landscape/2a2a2a2a2a2a2a2a2a2a2a2a2a2a2a2a2a2a2a2a2a2a2a2a2a2a2a2a2a2a2a2a.mp4".
Definition unprobed_key : string :=
  "/2a2a2a2a2a2a2a2a2a2a2a2a2a2a2a2a2a2a2a2a2a2a2a2a2a2a2a2a2a2a2a2a.mp4".
Definition bucket_url (key : string) : string :=
  "https://tubely.s3.us-east-2.amazonaws.com/" +:+ key.
Definition tmp_name : string := "/tmp/tubely-upload.mp4123".

(** Where the thumbnail of [vid] goes when it is a PNG. *)
Definition thumbnail_path : string :=
  "./assets/00000000-0000-0000-0000-000000000007.png".

(** A thumbnail of 10 MiB and one byte. *)
Definition big_thumbnail : list byte := repeat x00 (Z.to_nat (10 * 2 ^ 20 + 1)).

End Fixture.


(** * Properties *)

(** ** The program logic *)

Lemma wp_bind {A B} (m : M A) (f : A -> M B) Q s :
  wp m (kont f Q) s -> wp (m ≫= f) Q s.
Proof. unfold wp, kont, mbind, M_bind. destruct (m s) as [[a| |] s']; simpl; auto. Qed.

Lemma kont_next {A B} (f : A -> M B) Q a s : wp (f a) Q s -> kont f Q (Next a) s.
Proof. auto. Qed.
Lemma kont_return {A B} (f : A -> M B) Q s : Q Return_ s -> kont f Q Return_ s.
Proof. auto. Qed.
Lemma kont_panic {A B} (f : A -> M B) Q s : Q Panic_ s -> kont f Q Panic_ s.
Proof. auto. Qed.

Lemma wp_ret {A} (a : A) Q s : Q (Next a) s -> wp (mret a) Q s.
Proof. auto. Qed.
Lemma wp_return {A} (Q : ctl A -> FnState -> Prop) s : Q Return_ s -> wp return_ Q s.
Proof. auto. Qed.
Lemma wp_panic {A} (Q : ctl A -> FnState -> Prop) s : Q Panic_ s -> wp panic Q s.
Proof. auto. Qed.
Lemma wp_skip Q s : Q (Next tt) s -> wp skip Q s.
Proof. auto. Qed.
Lemma wp_defer d Q w tr ds fm :
  Q (Next tt) (mkSt w tr (d :: ds) fm) -> wp (defer d) Q (mkSt w tr ds fm).
Proof. auto. Qed.
Lemma wp_when (b : bool) m Q s :
  (b = true -> wp m Q s) -> (b = false -> Q (Next tt) s) -> wp (when_ b m) Q s.
Proof. intros H1 H2. destruct b; [apply H1|apply H2]; reflexivity. Qed.
Lemma wp_deref {A} (o : option A) Q s :
  (forall a, o = Some a -> Q (Next a) s) -> (o = None -> Q Panic_ s) -> wp (deref o) Q s.
Proof. destruct o; unfold wp; simpl; auto. Qed.

Lemma wp_respondWithError code msg Q w tr ds fm :
  Q (Next tt) (mkSt w (tr ++ [EvRespond code (ErrorBody msg)]) ds fm) ->
  wp (respondWithError code msg) Q (mkSt w tr ds fm).
Proof. auto. Qed.
Lemma wp_respondWithJSON code v Q w tr ds fm :
  Q (Next tt) (mkSt w (tr ++ [EvRespond code (VideoBody v)]) ds fm) ->
  wp (respondWithJSON code v) Q (mkSt w tr ds fm).
Proof. auto. Qed.

Lemma call_wp body w (P : Result -> Prop) :
  wp body (fun c s => P (finish c s)) (mkSt w [] [] None) -> P (call body w).
Proof. unfold wp, call, finish. destruct (body _) as [c s]. auto. Qed.

(** *** The multipart form *)

Lemma form_file_ReadForm key parts : forall mm,
  form_file key (ReadForm mm parts) = List.find (fun p => String.eqb (FormName p) key) parts.
Proof.
  unfold form_file. induction parts as [|p ps IH]; intros mm; simpl; [reflexivity|].
  destruct (mm <? part_len p); simpl; destruct (FormName p =? key)%string; simpl; auto.
Qed.

Lemma wp_ParseMultipartForm r mm Q w tr ds :
  (forall parts, read_body (Body r) = Some parts ->
     Q (Next None)
       (mkSt w (tr ++ [EvReadForm (stored_sizes (ReadForm mm parts))]) ds
             (Some (ReadForm mm parts)))) ->
  (forall msg, read_body (Body r) = None -> Q (Next (Some msg)) (mkSt w tr ds None)) ->
  wp (ParseMultipartForm r mm) Q (mkSt w tr ds None).
Proof.
  intros Hok Herr. unfold wp, ParseMultipartForm. simpl.
  destruct (read_body (Body r)) as [parts|]; simpl; auto.
Qed.

Lemma wp_FormFile_parsed r key mm parts Q w tr ds :
  read_body (Body r) = Some parts ->
  (forall p, upload_part r key = Some p ->
     Q (Next (Some p, None)) (mkSt w tr ds (Some (ReadForm mm parts)))) ->
  (forall msg, upload_part r key = None ->
     Q (Next (None, Some msg)) (mkSt w tr ds (Some (ReadForm mm parts)))) ->
  wp (FormFile r key) Q (mkSt w tr ds (Some (ReadForm mm parts))).
Proof.
  intros Hr Hok Herr. unfold upload_part in *. rewrite Hr in *. simpl in *.
  rewrite <- (form_file_ReadForm key parts mm) in *.
  unfold wp, FormFile, form_file, mbind, M_bind in *. simpl.
  destruct (List.find _ (ReadForm mm parts)) as [pb|]; simpl in *; auto.
Qed.

Lemma wp_FormFile r key Q w tr ds :
  (forall parts p, read_body (Body r) = Some parts -> upload_part r key = Some p ->
     Q (Next (Some p, None))
       (mkSt w (tr ++ [EvReadForm (stored_sizes (ReadForm defaultMaxMemory parts))]) ds
             (Some (ReadForm defaultMaxMemory parts)))) ->
  (forall parts msg, read_body (Body r) = Some parts -> upload_part r key = None ->
     Q (Next (None, Some msg))
       (mkSt w (tr ++ [EvReadForm (stored_sizes (ReadForm defaultMaxMemory parts))]) ds
             (Some (ReadForm defaultMaxMemory parts)))) ->
  (forall msg, read_body (Body r) = None -> Q (Next (None, Some msg)) (mkSt w tr ds None)) ->
  wp (FormFile r key) Q (mkSt w tr ds None).
Proof.
  intros Hok Hmiss Herr. unfold upload_part in *.
  unfold wp, FormFile, ParseMultipartForm, mbind, M_bind. simpl.
  destruct (read_body (Body r)) as [parts|]; simpl; auto.
  specialize (Hok parts). specialize (Hmiss parts). simpl in *.
  rewrite <- (form_file_ReadForm key parts defaultMaxMemory) in *.
  unfold form_file in *.
  destruct (List.find _ (ReadForm defaultMaxMemory parts)) as [pb|]; simpl in *; auto.
Qed.

(** *** The external calls *)

Section Ops.

Context (E : Env) (cfg : apiConfig).

Lemma wp_GetVideo id Q w tr ds fm :
  (forall v, getVideo_fails E = false -> db_find id (db w) = Some v ->
     Q (Next (v, None)) (mkSt w (tr ++ [EvGetVideo id]) ds fm)) ->
  (forall msg, getVideo_fails E = true \/ db_find id (db w) = None ->
     Q (Next (zeroVideo, Some msg)) (mkSt w (tr ++ [EvGetVideo id]) ds fm)) ->
  wp (GetVideo E id) Q (mkSt w tr ds fm).
Proof.
  intros Hok Herr. unfold wp, GetVideo, mbind, M_bind. simpl.
  destruct (getVideo_fails E); simpl; auto.
  destruct (db_find id (db w)); simpl; auto.
Qed.

Lemma wp_UpdateVideo v Q w tr ds fm :
  (updateVideo_fails E = false ->
     Q (Next None)
       (mkSt (with_db (db_replace v (db w)) w) (tr ++ [EvUpdateVideo v true]) ds fm)) ->
  (forall msg, updateVideo_fails E = true ->
     Q (Next (Some msg)) (mkSt w (tr ++ [EvUpdateVideo v false]) ds fm)) ->
  wp (UpdateVideo E v) Q (mkSt w tr ds fm).
Proof.
  intros Hok Herr. unfold wp, UpdateVideo, mbind, M_bind. simpl.
  destruct (updateVideo_fails E); simpl; auto.
Qed.

Lemma wp_ReadAll file Q w tr ds fm :
  (readAll_fails E = false ->
     Q (Next (Data file, None)) (mkSt w (tr ++ [EvReadAll (part_len file)]) ds fm)) ->
  (forall msg, readAll_fails E = true -> Q (Next ([], Some msg)) (mkSt w tr ds fm)) ->
  wp (ReadAll E file) Q (mkSt w tr ds fm).
Proof.
  intros Hok Herr. unfold wp, ReadAll, mbind, M_bind. simpl.
  destruct (readAll_fails E); simpl; auto.
Qed.

Lemma wp_os_Create path Q w tr ds fm :
  (create_fails E = false ->
     Q (Next (Some path, None))
       (mkSt (with_fs (<[path := []]> (fs w)) w) (tr ++ [EvCreate path]) ds fm)) ->
  (forall msg, create_fails E = true -> Q (Next (None, Some msg)) (mkSt w tr ds fm)) ->
  wp (os_Create E path) Q (mkSt w tr ds fm).
Proof.
  intros Hok Herr. unfold wp, os_Create, mbind, M_bind. simpl.
  destruct (create_fails E); simpl; auto.
Qed.

Lemma wp_os_CreateTemp Q w tr ds fm :
  (forall name, createTemp E = Some name ->
     Q (Next (Some name, None))
       (mkSt (with_fs (<[name := []]> (fs w)) w) (tr ++ [EvCreateTemp name]) ds fm)) ->
  (forall msg, createTemp E = None -> Q (Next (None, Some msg)) (mkSt w tr ds fm)) ->
  wp (os_CreateTemp E) Q (mkSt w tr ds fm).
Proof.
  intros Hok Herr. unfold wp, os_CreateTemp, mbind, M_bind.
  destruct (createTemp E); simpl; auto.
Qed.

Lemma wp_io_Copy name src Q w tr ds fm :
  (copy_fails E = false ->
     Q (Next (Z.of_nat (length src), None))
       (mkSt (with_fs (<[name := src]> (fs w)) w)
             (tr ++ [EvWrite name (Z.of_nat (length src))]) ds fm)) ->
  (forall msg, copy_fails E = true -> Q (Next (0, Some msg)) (mkSt w tr ds fm)) ->
  wp (io_Copy E (Some name) src) Q (mkSt w tr ds fm).
Proof.
  intros Hok Herr. unfold wp, io_Copy, mbind, M_bind. simpl.
  destruct (copy_fails E); simpl; auto.
Qed.

Lemma wp_os_Open path Q w tr ds fm :
  (forall content, fs w !! path = Some content -> open_fails E = false ->
     Q (Next (Some path, None)) (mkSt w (tr ++ [EvOpen path]) ds fm)) ->
  (forall msg, fs w !! path = None \/ open_fails E = true ->
     Q (Next (None, Some msg)) (mkSt w tr ds fm)) ->
  wp (os_Open E path) Q (mkSt w tr ds fm).
Proof.
  intros Hok Herr. unfold wp, os_Open, mbind, M_bind. simpl.
  destruct (fs w !! path) eqn:Hf; simpl; auto.
  destruct (open_fails E) eqn:Ho; simpl; eauto.
Qed.

Lemma wp_PutObject key ct body Q w tr ds fm :
  (forall name content, body = Some name -> fs w !! name = Some content ->
     putObject_fails E = false ->
     Q (Next None)
       (mkSt (with_s3 (<[key := (ct, content)]> (s3 w)) w)
             (tr ++ [EvPutObject (s3Bucket cfg) key true]) ds fm)) ->
  (forall msg,
     Q (Next (Some msg)) (mkSt w (tr ++ [EvPutObject (s3Bucket cfg) key false]) ds fm)) ->
  wp (PutObject E cfg key ct body) Q (mkSt w tr ds fm).
Proof.
  intros Hok Herr. unfold wp, PutObject, mbind, M_bind. simpl.
  destruct body as [name|]; simpl; auto.
  destruct (fs w !! name) eqn:Hf; simpl; auto.
  destruct (putObject_fails E) eqn:Hp; simpl; eauto.
Qed.

Lemma wp_getVideoAspectRatio path Q w tr ds fm :
  let s' := mkSt w (tr ++ [EvExec "ffprobe" (probe_args path)]) ds fm in
  (forall out data stream0 bucket,
     ffprobe E (fs w !! path) = Some out -> json_Unmarshal E out = Some data ->
     Streams data !! 0%nat = Some stream0 ->
     bucket = (if String.eqb (DisplayAspectRatio stream0) "16:9" then "landscape"
               else if String.eqb (DisplayAspectRatio stream0) "9:16" then "portrait"
               else "other") ->
     Q (Next (bucket, None)) s') ->
  (forall out data, ffprobe E (fs w !! path) = Some out -> json_Unmarshal E out = Some data ->
     Streams data = [] -> Q Panic_ s') ->
  (forall msg,
     ffprobe E (fs w !! path) = None \/
     (exists out, ffprobe E (fs w !! path) = Some out /\ json_Unmarshal E out = None) ->
     Q (Next ("", Some msg)) s') ->
  wp (getVideoAspectRatio E path) Q (mkSt w tr ds fm).
Proof.
  intros s' Hok Hpanic Herr. unfold wp, getVideoAspectRatio, mbind, M_bind. simpl.
  destruct (ffprobe E (fs w !! path)) as [out|] eqn:Hp; simpl; [|apply Herr; auto].
  destruct (json_Unmarshal E out) as [data|] eqn:Hj; simpl; [|apply Herr; eauto].
  unfold index, deref. destruct (Streams data) as [|s0 rest] eqn:Hs; simpl.
  { eapply Hpanic; eauto. }
  assert (Hs0 : Streams data !! 0%nat = Some s0) by (rewrite Hs; reflexivity).
  destruct (DisplayAspectRatio s0 =? "16:9")%string eqn:H1; simpl.
  { eapply Hok; eauto. rewrite H1. reflexivity. }
  destruct (DisplayAspectRatio s0 =? "9:16")%string eqn:H2; simpl.
  { eapply Hok; eauto. rewrite H1, H2. reflexivity. }
  eapply Hok; eauto. rewrite H1, H2. reflexivity.
Qed.

Lemma wp_processVideoForFastStart path Q w tr ds fm :
  let out_path := path +:+ ".processing" in
  (forall out, ffmpeg E (fs w !! path) = Some out ->
     Q (Next (out_path, None))
       (mkSt (with_fs (<[out_path := out]> (fs w)) w)
             (tr ++ [EvExec "ffmpeg" (remux_args path out_path)]) ds fm)) ->
  (forall msg, ffmpeg E (fs w !! path) = None ->
     Q (Next ("", Some msg))
       (mkSt w (tr ++ [EvExec "ffmpeg" (remux_args path out_path)]) ds fm)) ->
  wp (processVideoForFastStart E path) Q (mkSt w tr ds fm).
Proof.
  intros out_path Hok Herr. unfold wp, processVideoForFastStart, mbind, M_bind. simpl.
  destruct (ffmpeg E (fs w !! path)) eqn:Hf; simpl; auto.
Qed.

(** *** The pure calls *)

Lemma uuidParse_cases s :
  (exists u, uuid_Parse E s = Some u /\ uuidParse E s = (u, None)) \/
  (exists msg, uuid_Parse E s = None /\ uuidParse E s = (uuid_Nil, Some msg)).
Proof. unfold uuidParse. destruct (uuid_Parse E s); eauto. Qed.

Lemma authGetBearerToken_cases h :
  (exists t, GetBearerToken E h = Some t /\ authGetBearerToken E h = (t, None)) \/
  (exists msg, GetBearerToken E h = None /\ authGetBearerToken E h = ("", Some msg)).
Proof. unfold authGetBearerToken. destruct (GetBearerToken E h); eauto. Qed.

Lemma authValidateJWT_cases t k :
  (exists u, ValidateJWT E t k = Some u /\ authValidateJWT E t k = (u, None)) \/
  (exists msg, ValidateJWT E t k = None /\ authValidateJWT E t k = (uuid_Nil, Some msg)).
Proof. unfold authValidateJWT. destruct (ValidateJWT E t k); eauto. Qed.

Lemma getVideoID_cases s :
  (exists u, uuid_Parse E s = Some u /\ getVideoID E s = (u, None)) \/
  (exists msg, uuid_Parse E s = None /\ getVideoID E s = (uuid_Nil, Some msg)).
Proof. unfold getVideoID, uuidParse. destruct (uuid_Parse E s); simpl; eauto. Qed.

Lemma getUserID_cases r :
  (exists u, authenticate E cfg r = Some u /\ getUserID E cfg (Header r) = (u, None)) \/
  (exists msg, authenticate E cfg r = None /\
               getUserID E cfg (Header r) = (uuid_Nil, Some msg)).
Proof.
  unfold getUserID, authenticate, authGetBearerToken, authValidateJWT.
  destruct (GetBearerToken E (Header r)) as [t|]; simpl; eauto.
  destruct (ValidateJWT E t (jwtSecret cfg)); simpl; eauto.
Qed.

End Ops.

(** One step of symbolic execution: the rule for the statement at the head
    of the code, one goal per way it can end. *)
Ltac step :=
  lazymatch goal with
  | |- wp (mbind _ _) _ _ => apply wp_bind
  | |- wp (mret _) _ _ => apply wp_ret
  | |- wp return_ _ _ => apply wp_return
  | |- wp panic _ _ => apply wp_panic
  | |- wp skip _ _ => apply wp_skip
  | |- wp (defer _) _ _ => apply wp_defer
  | |- wp (when_ (is_err None) _) _ _ => apply wp_skip
  | |- wp (when_ (is_err (Some _)) ?m) ?Q ?s => change (wp m Q s)
  | |- wp (when_ _ _) _ _ => apply wp_when; intros ?
  | |- wp (deref (Some _)) _ _ => apply wp_ret
  | |- wp (deref None) _ _ => apply wp_panic
  | |- wp (deref _) _ _ => apply wp_deref; [intros ? ?|intros ?]
  | |- wp (index _ _) _ _ => unfold index at 1
  | |- wp (respondWithError _ _) _ _ => apply wp_respondWithError
  | |- wp (respondWithJSON _ _) _ _ => apply wp_respondWithJSON
  | |- wp (ParseMultipartForm _ _) _ (mkSt _ _ _ None) =>
      apply wp_ParseMultipartForm; [intros ? ?|intros ? ?]
  | |- wp (FormFile _ _) _ (mkSt _ _ _ (Some _)) =>
      eapply wp_FormFile_parsed; [eassumption|intros ? ?|intros ? ?]
  | |- wp (FormFile _ _) _ (mkSt _ _ _ None) =>
      apply wp_FormFile; [intros ? ? ? ?|intros ? ? ? ?|intros ? ?]
  | |- wp (GetVideo _ _) _ _ => apply wp_GetVideo; [intros ? ? ?|intros ? ?]
  | |- wp (UpdateVideo _ _) _ _ => apply wp_UpdateVideo; [intros ?|intros ? ?]
  | |- wp (ReadAll _ _) _ _ => apply wp_ReadAll; [intros ?|intros ? ?]
  | |- wp (os_Create _ _) _ _ => apply wp_os_Create; [intros ?|intros ? ?]
  | |- wp (os_CreateTemp _) _ _ => apply wp_os_CreateTemp; [intros ? ?|intros ? ?]
  | |- wp (io_Copy _ (Some _) _) _ _ => apply wp_io_Copy; [intros ?|intros ? ?]
  | |- wp (os_Open _ _) _ _ => apply wp_os_Open; [intros ? ? ?|intros ? ?]
  | |- wp (PutObject _ _ _ _ _) _ _ => apply wp_PutObject; [intros ? ? ? ? ?|intros ?]
  | |- wp (getVideoAspectRatio _ _) _ _ =>
      apply wp_getVideoAspectRatio; [intros ? ? ? ? ? ? ? ?|intros ? ? ? ? ?|intros ? ?]
  | |- wp (processVideoForFastStart _ _) _ _ =>
      apply wp_processVideoForFastStart; [intros ? ?|intros ? ?]
  | |- wp (let '(_, _) := uuidParse ?E ?x in _) _ _ =>
      destruct (uuidParse_cases E x) as [(? & ? & ->)|(? & ? & ->)]
  | |- wp (let '(_, _) := authGetBearerToken ?E ?x in _) _ _ =>
      destruct (authGetBearerToken_cases E x) as [(? & ? & ->)|(? & ? & ->)]
  | |- wp (let '(_, _) := authValidateJWT ?E ?x ?y in _) _ _ =>
      destruct (authValidateJWT_cases E x y) as [(? & ? & ->)|(? & ? & ->)]
  | |- wp (let '(_, _) := getVideoID ?E ?x in _) _ _ =>
      destruct (getVideoID_cases E x) as [(? & ? & ->)|(? & ? & ->)]
  | |- wp (let '(_, _) := getUserID ?E ?c (Header ?r) in _) _ _ =>
      destruct (getUserID_cases E c r) as [(? & ? & ->)|(? & ? & ->)]
  | |- wp (let _ := _ in _) _ _ => lazy zeta
  | |- kont _ _ (Next _) _ => apply kont_next; lazy beta iota
  | |- kont _ _ Return_ _ => apply kont_return
  | |- kont _ _ Panic_ _ => apply kont_panic
  end.

(** Run a handler call to its ends. *)
Ltac run_call :=
  lazymatch goal with
  | |- context [call ?body ?w] =>
      pattern (call body w); apply call_wp;
      unfold handlerUploadThumbnail, VideoV1.handlerUploadVideo,
        VideoV2.handlerUploadVideo;
      repeat step
  end.

(** ** Small facts used at the ends of a run *)

Lemma authenticate_intro E cfg r t u :
  GetBearerToken E (Header r) = Some t ->
  ValidateJWT E t (jwtSecret cfg) = Some u ->
  authenticate E cfg r = Some u.
Proof. intros Ht Hu. unfold authenticate. rewrite Ht. exact Hu. Qed.



Lemma owner_check_passed (a b : UUID) : negb (a =? b)%N = false -> a = b.
Proof. intros H. apply negb_false_iff in H. apply N.eqb_eq. exact H. Qed.

Lemma owner_check_failed (a b : UUID) : negb (a =? b)%N = true -> a <> b.
Proof. intros H. apply negb_true_iff in H. apply N.eqb_neq. exact H. Qed.

Lemma image_type_allowed (mt : string) :
  negb (mt =? "image/jpeg")%string && negb (mt =? "image/png")%string = false ->
  mt = "image/jpeg" \/ mt = "image/png".
Proof.
  intros H. apply andb_false_iff in H. destruct H as [H|H];
    apply negb_false_iff, String.eqb_eq in H; auto.
Qed.


Lemma video_type_allowed (mt : string) :
  negb (mt =? "video/mp4")%string = false -> mt = "video/mp4".
Proof. intros H. apply negb_false_iff, String.eqb_eq in H. exact H. Qed.


(** The record store after a commit: the row fetched under an identifier is
    the committed record. *)
Lemma db_find_ID id d v : db_find id d = Some v -> ID v = id.
Proof.
  unfold db_find. intros H. apply find_some in H. destruct H as [_ H].
  apply N.eqb_eq. exact H.
Qed.

Lemma db_find_replace id d v v' :
  db_find id d = Some v -> ID v' = id -> db_find id (db_replace v' d) = Some v'.
Proof.
  unfold db_find, db_replace. intros Hf Hid. subst id.
  induction d as [|x d IH]; simpl in *; [discriminate|].
  destruct (ID x =? ID v')%N eqn:Hx.
  - simpl. rewrite N.eqb_refl. reflexivity.
  - simpl. rewrite Hx. apply IH. exact Hf.
Qed.

Lemma db_find_replace_other id d v' :
  ID v' <> id -> db_find id (db_replace v' d) = db_find id d.
Proof.
  unfold db_find, db_replace. intros Hid.
  induction d as [|x d IH]; simpl; [reflexivity|].
  destruct (ID x =? ID v')%N eqn:Hx.
  - apply N.eqb_eq in Hx. simpl.
    destruct (ID v' =? id)%N eqn:H1; [apply N.eqb_eq in H1; contradiction|].
    destruct (ID x =? id)%N eqn:H2; [apply N.eqb_eq in H2; congruence|].
    exact IH.
  - simpl. destruct (ID x =? id)%N; [reflexivity|exact IH].
Qed.

(** ** The thumbnail handler: what a successful call is *)

Lemma thumbnail_ok_inv E cfg r w :
  http_status (trace (call (handlerUploadThumbnail E cfg r) w)) = Some 200 ->
  exists videoID userID parts p video ext,
    uuid_Parse E (PathValue r "videoID") = Some videoID /\
    authenticate E cfg r = Some userID /\
    read_body (Body r) = Some parts /\
    upload_part r "thumbnail" = Some p /\
    (declared_type E p = "image/jpeg" \/ declared_type E p = "image/png") /\
    db_find videoID (db w) = Some video /\
    UserID video = userID /\
    strings_Split (declared_type E p) "/" !! 1%nat = Some ext /\
    let path := filepath_Join E (assetsRoot cfg) (uuid_String E videoID +:+ "." +:+ ext) in
    let video' :=
      set_ThumbnailURL video
        ("http://localhost:8091/assets/" +:+ uuid_String E videoID +:+ "." +:+ ext) in
    call (handlerUploadThumbnail E cfg r) w =
    mkResult Done
      (mkWorld (db_replace video' (db w)) (<[path := Data p]> (<[path := []]> (fs w))) (s3 w))
      [EvReadForm (stored_sizes (ReadForm (Z.shiftl 10 20) parts));
       EvReadAll (part_len p); EvGetVideo videoID; EvCreate path;
       EvWrite path (part_len p); EvUpdateVideo video' true;
       EvRespond 200 (VideoBody video')].
Proof.
  run_call; simpl; intros Hst; try discriminate Hst.
  do 6 eexists.
  repeat match goal with |- _ /\ _ => split end;
    eauto using authenticate_intro, image_type_allowed, owner_check_passed.
Qed.

(** ... and the converse: when every step succeeds, this is the call. *)
Lemma thumbnail_ok_run E cfg r w videoID userID parts p video ext :
  uuid_Parse E (PathValue r "videoID") = Some videoID ->
  authenticate E cfg r = Some userID ->
  read_body (Body r) = Some parts ->
  upload_part r "thumbnail" = Some p ->
  (declared_type E p = "image/jpeg" \/ declared_type E p = "image/png") ->
  strings_Split (declared_type E p) "/" !! 1%nat = Some ext ->
  db_find videoID (db w) = Some video ->
  UserID video = userID ->
  readAll_fails E = false -> getVideo_fails E = false -> create_fails E = false ->
  copy_fails E = false -> updateVideo_fails E = false ->
  let path := filepath_Join E (assetsRoot cfg) (uuid_String E videoID +:+ "." +:+ ext) in
  let video' :=
    set_ThumbnailURL video
      ("http://localhost:8091/assets/" +:+ uuid_String E videoID +:+ "." +:+ ext) in
  call (handlerUploadThumbnail E cfg r) w =
  mkResult Done
    (mkWorld (db_replace video' (db w)) (<[path := Data p]> (<[path := []]> (fs w))) (s3 w))
    [EvReadForm (stored_sizes (ReadForm (Z.shiftl 10 20) parts));
     EvReadAll (part_len p); EvGetVideo videoID; EvCreate path;
     EvWrite path (part_len p); EvUpdateVideo video' true;
     EvRespond 200 (VideoBody video')].
Proof.
  intros Hid Hauth Hbody Hpart Htype Hext Hdb Howner Hread Hget Hcreate Hcopy Hupd.
  unfold authenticate in Hauth.
  destruct (GetBearerToken E (Header r)) as [t|] eqn:Htok; [simpl in Hauth|discriminate].
  unfold declared_type in *.
  assert (Hallow : negb (mime_ParseMediaType E (PartContentType p) =? "image/jpeg")%string
                   && negb (mime_ParseMediaType E (PartContentType p) =? "image/png")%string
                   = false).
  { destruct Htype as [-> | ->]; reflexivity. }
  assert (Hown : negb (UserID video =? userID)%N = false).
  { rewrite Howner, N.eqb_refl. reflexivity. }
  lazy zeta.
  run_call; simplify_eq; try congruence;
    repeat match goal with H : _ \/ _ |- _ => destruct H end; try congruence.
  all: reflexivity.
Qed.

(** ** The video handlers: what a successful call is *)

Lemma video_v2_ok_inv E cfg r w :
  http_status (trace (call (VideoV2.handlerUploadVideo E cfg r) w)) = Some 200 ->
  exists videoID userID parts p video name stream0 remuxed,
    uuid_Parse E (PathValue r "videoID") = Some videoID /\
    authenticate E cfg r = Some userID /\
    read_body (Body r) = Some parts /\
    upload_part r "video" = Some p /\
    declared_type E p = "video/mp4" /\
    db_find videoID (db w) = Some video /\
    UserID video = userID /\
    createTemp E = Some name /\
    let bucket := if (DisplayAspectRatio stream0 =? "16:9")%string then "landscape"
                  else if (DisplayAspectRatio stream0 =? "9:16")%string then "portrait"
                  else "other" in
    let key := video_key bucket (rand_Read E 32) in
    let video' := set_VideoURL video (video_url cfg key) in
    let res := call (VideoV2.handlerUploadVideo E cfg r) w in
    outcome res = Done /\
    db (world res) = db_replace video' (db w) /\
    s3 (world res) = <[key := ("video/mp4", remuxed)]> (s3 w) /\
    trace res =
    [EvGetVideo videoID;
     EvReadForm (stored_sizes (ReadForm defaultMaxMemory parts));
     EvCreateTemp name; EvWrite name (part_len p);
     EvExec "ffprobe" (probe_args name);
     EvExec "ffmpeg" (remux_args name (name +:+ ".processing"));
     EvOpen (name +:+ ".processing");
     EvPutObject (s3Bucket cfg) key true;
     EvUpdateVideo video' true;
     EvRespond 200 (VideoBody video');
     EvClose; EvRemove (name +:+ ".processing"); EvClose; EvRemove name; EvClose].
Proof.
  run_call; simpl; intros Hst; try discriminate Hst.
  simplify_eq.
  match goal with H : negb (_ =? "video/mp4")%string = false |- _ =>
    apply video_type_allowed in H; rewrite H in * end.
  match goal with H : fs _ !! _ = Some _ |- _ => simpl in H; rewrite lookup_insert_eq in H end.
  simplify_eq.
  do 8 eexists.
  repeat match goal with |- _ /\ _ => split end;
    eauto using owner_check_passed.
Qed.

Lemma video_v1_ok_inv E cfg r w :
  http_status (trace (call (VideoV1.handlerUploadVideo E cfg r) w)) = Some 200 ->
  exists videoID userID parts p video name bucket,
    uuid_Parse E (PathValue r "videoID") = Some videoID /\
    authenticate E cfg r = Some userID /\
    read_body (Body r) = Some parts /\
    upload_part r "video" = Some p /\
    declared_type E p = "video/mp4" /\
    db_find videoID (db w) = Some video /\
    UserID video = userID /\
    createTemp E = Some name /\
    let key := video_key bucket (rand_Read E 32) in
    let video' := set_VideoURL video (video_url cfg key) in
    let res := call (VideoV1.handlerUploadVideo E cfg r) w in
    outcome res = Done /\
    db (world res) = db_replace video' (db w) /\
    s3 (world res) = <[key := ("video/mp4", Data p)]> (s3 w) /\
    trace res =
    [EvGetVideo videoID;
     EvReadForm (stored_sizes (ReadForm defaultMaxMemory parts));
     EvCreateTemp name; EvWrite name (part_len p);
     EvExec "ffprobe" (probe_args name);
     EvPutObject (s3Bucket cfg) key true;
     EvUpdateVideo video' true;
     EvRespond 200 (VideoBody video');
     EvClose; EvRemove name; EvClose].
Proof.
  run_call; simpl; intros Hst; try discriminate Hst.
  all: simplify_eq.
  all: match goal with H : negb (_ =? "video/mp4")%string = false |- _ =>
    apply video_type_allowed in H; rewrite H in * end.
  all: match goal with H : fs _ !! _ = Some _ |- _ =>
    simpl in H; rewrite lookup_insert_eq in H end.
  all: simplify_eq.
  all: do 7 eexists.
  all: repeat match goal with |- _ /\ _ => split end;
    eauto using owner_check_passed, authenticate_intro.
Qed.

(** ** Publish before commit *)

(** A check along a trace: [P pre v ok] for every commit [EvUpdateVideo v ok],
    [pre] being the events before it. *)
Fixpoint commits_satisfy (P : list Event -> Video -> bool -> Prop)
    (seen rest : list Event) : Prop :=
  match rest with
  | [] => True
  | EvUpdateVideo v ok :: t =>
      P seen v ok /\ commits_satisfy P (seen ++ [EvUpdateVideo v ok]) t
  | e :: t => commits_satisfy P (seen ++ [e]) t
  end.

Lemma commits_satisfy_sound P rest : forall seen,
  commits_satisfy P seen rest ->
  forall pre v ok post, rest = pre ++ EvUpdateVideo v ok :: post -> P (seen ++ pre) v ok.
Proof.
  induction rest as [|e t IH]; intros seen Hc pre v ok post Heq.
  - destruct pre; discriminate.
  - destruct pre as [|e' pre]; simpl in Heq; inversion Heq; subst.
    + simpl in Hc. destruct Hc as [Hp _]. rewrite app_nil_r. exact Hp.
    + assert (Ht : commits_satisfy P (seen ++ [e']) (pre ++ EvUpdateVideo v ok :: post)).
      { destruct e'; simpl in Hc; try exact Hc. destruct Hc as [_ Hc]. exact Hc. }
      specialize (IH _ Ht pre v ok post eq_refl).
      rewrite <- app_assoc in IH. exact IH.
Qed.

Ltac find_in_list :=
  solve [simpl; repeat first [left; reflexivity | right]].

Ltac split_ors :=
  repeat match goal with
         | H : _ \/ _ |- _ => destruct H as [H|H]
         | H : False |- _ => destruct H
         | H : @eq Event _ _ |- _ => first [discriminate H | injection H as ? ?; subst]
         end.

(** C8 holds of each end of a run of a video handler. *)
Ltac publish_before_commit_leaf :=
  simpl; split;
  [ lazymatch goal with
    | |- forall pre v ok post, ?tr = _ ->
           exists key, In (EvPutObject ?b key true) pre /\
                       VideoURL v = Some (video_url ?c key) /\ is_Some (?m !! key) =>
        apply (commits_satisfy_sound
                 (fun pre v ok =>
                    exists key, In (EvPutObject b key true) pre /\
                                VideoURL v = Some (video_url c key) /\ is_Some (m !! key))
                 tr [])
    end;
    simpl; repeat split; try (eexists; split; [find_in_list|split; [reflexivity|]]);
    rewrite ?lookup_insert_eq; eauto
  | intros ? ? Hin; split_ors;
    (split; [intros ? ? Hin'; simpl in Hin'; split_ors|reflexivity]) ].

(** C8. In both revisions of the video handler the object store is written
    successfully strictly before the record store is asked to commit: every
    commit in the trace of a call comes after a successful [PutObject] of the
    key that the committed video URL names, and that object is in the bucket
    when the call is over.  When [PutObject] fails, no commit is attempted and
    the record store is left as it was. *)
Theorem video_publish_before_commit E cfg r w res :
  res = call (VideoV1.handlerUploadVideo E cfg r) w \/
  res = call (VideoV2.handlerUploadVideo E cfg r) w ->
  (forall pre v ok post,
     trace res = pre ++ EvUpdateVideo v ok :: post ->
     exists key,
       In (EvPutObject (s3Bucket cfg) key true) pre /\
       VideoURL v = Some (video_url cfg key) /\
       is_Some (s3 (world res) !! key)) /\
  (forall b k,
     In (EvPutObject b k false) (trace res) ->
     (forall v ok, ~ In (EvUpdateVideo v ok) (trace res)) /\
     db (world res) = db w).
Proof.
  intros [-> | ->]; run_call; publish_before_commit_leaf.
Qed.

(** ** Content validation *)





Lemma upload_part_unreadable r key : read_body (Body r) = None -> upload_part r key = None.
Proof. intros H. unfold upload_part. rewrite H. reflexivity. Qed.




(** ** The stream probe *)


(** C9 fails on the code: the probe output may decode to a value without
    streams, and then the access to [data.Streams[0]] is out of range.  The
    function neither classifies nor returns an error: it panics. *)
Theorem aspect_ratio_panics_without_streams E filePath s out data :
  ffprobe E (fs (st_world s) !! filePath) = Some out ->
  json_Unmarshal E out = Some data ->
  Streams data = [] ->
  (getVideoAspectRatio E filePath s).1 = Panic_.
Proof.
  intros Hp Hj Hs.
  unfold getVideoAspectRatio, mbind, M_bind, emit, get_world. simpl.
  rewrite Hp, Hj. unfold index, deref. rewrite Hs. reflexivity.
Qed.

(** ** The thumbnail URL *)

Lemma image_ext (mt ext : string) :
  mt = "image/jpeg" \/ mt = "image/png" ->
  strings_Split mt "/" !! 1%nat = Some ext ->
  mt = "image/" +:+ ext.
Proof. intros [-> | ->] H; vm_compute in H; injection H as <-; reflexivity. Qed.

(** C6. A thumbnail upload that is answered with 200 comes from the owner
    of the record, declares [image/jpeg] or [image/png], and leaves the
    record with the thumbnail URL
    [http://localhost:8091/assets/{videoID}.{ext}], where [ext] is what
    follows the slash in the media type.  The URL depends on nothing else:
    any other successful upload for the same identifier and of the same
    media type leaves the same URL. *)
Theorem thumbnail_url_deterministic E cfg r w :
  http_status (trace (call (handlerUploadThumbnail E cfg r) w)) = Some 200 ->
  exists videoID p ext video,
    uuid_Parse E (PathValue r "videoID") = Some videoID /\
    upload_part r "thumbnail" = Some p /\
    declared_type E p = "image/" +:+ ext /\
    db_find videoID (db w) = Some video /\
    authenticate E cfg r = Some (UserID video) /\
    let url := "http://localhost:8091" +:+ "/assets/" +:+ uuid_String E videoID
               +:+ "." +:+ ext in
    db_find videoID (db (world (call (handlerUploadThumbnail E cfg r) w))) =
      Some (mkVideo (ID video) (UserID video) (Some url) (VideoURL video)
                    (Descriptive video)) /\
    forall r' w',
      http_status (trace (call (handlerUploadThumbnail E cfg r') w')) = Some 200 ->
      PathValue r' "videoID" = PathValue r "videoID" ->
      declared_type E <$> upload_part r' "thumbnail" =
        declared_type E <$> upload_part r "thumbnail" ->
      db_find videoID (db (world (call (handlerUploadThumbnail E cfg r') w')))
        ≫= ThumbnailURL = Some url.
Proof.
  intros Hok.
  destruct (thumbnail_ok_inv E cfg r w Hok)
    as (videoID & userID & parts & p & video & ext &
        Hid & Hauth & Hbody & Hpart & Htype & Hdb & Hown & Hext & Hcall).
  exists videoID, p, ext, video.
  pose proof (image_ext _ _ Htype Hext) as Hmt.
  repeat match goal with |- _ /\ _ => split end; try assumption.
  { congruence. }
  lazy zeta. split.
  { rewrite Hcall. simpl. erewrite db_find_replace;
      [reflexivity | eassumption | simpl; eauto using db_find_ID]. }
  intros r' w' Hok' Hpath Hsame.
  destruct (thumbnail_ok_inv E cfg r' w' Hok')
    as (videoID' & userID' & parts' & p' & video' & ext' &
        Hid' & Hauth' & Hbody' & Hpart' & Htype' & Hdb' & Hown' & Hext' & Hcall').
  pose proof (image_ext _ _ Htype' Hext') as Hmt'.
  rewrite Hpart, Hpart' in Hsame. simpl in Hsame. injection Hsame as Hsame.
  rewrite Hpath, Hid in Hid'. injection Hid' as <-.
  assert (ext' = ext) as ->.
  { rewrite Hmt, Hmt' in Hsame. simpl in Hsame. congruence. }
  rewrite Hcall'. simpl. erewrite db_find_replace;
      [reflexivity | eassumption | simpl; eauto using db_find_ID].
Qed.

(** ** The frame of a successful upload *)

(** C10. An upload answered with 200 commits exactly one record, and the
    store takes it: the record fetched for the identifier in the path, with
    the thumbnail URL (thumbnail upload) or the video URL (video upload, in
    both revisions) set and every other field as fetched. *)
Theorem successful_upload_frame E cfg r w :
  (http_status (trace (call (handlerUploadThumbnail E cfg r) w)) = Some 200 ->
   exists videoID video video',
     uuid_Parse E (PathValue r "videoID") = Some videoID /\
     db_find videoID (db w) = Some video /\
     commits (trace (call (handlerUploadThumbnail E cfg r) w)) = [(video', true)] /\
     db (world (call (handlerUploadThumbnail E cfg r) w)) = db_replace video' (db w) /\
     is_Some (ThumbnailURL video') /\
     ID video' = ID video /\ UserID video' = UserID video /\
     VideoURL video' = VideoURL video /\ Descriptive video' = Descriptive video) /\
  (http_status (trace (call (VideoV1.handlerUploadVideo E cfg r) w)) = Some 200 ->
   exists videoID video video',
     uuid_Parse E (PathValue r "videoID") = Some videoID /\
     db_find videoID (db w) = Some video /\
     commits (trace (call (VideoV1.handlerUploadVideo E cfg r) w)) = [(video', true)] /\
     db (world (call (VideoV1.handlerUploadVideo E cfg r) w)) = db_replace video' (db w) /\
     is_Some (VideoURL video') /\
     ID video' = ID video /\ UserID video' = UserID video /\
     ThumbnailURL video' = ThumbnailURL video /\ Descriptive video' = Descriptive video) /\
  (http_status (trace (call (VideoV2.handlerUploadVideo E cfg r) w)) = Some 200 ->
   exists videoID video video',
     uuid_Parse E (PathValue r "videoID") = Some videoID /\
     db_find videoID (db w) = Some video /\
     commits (trace (call (VideoV2.handlerUploadVideo E cfg r) w)) = [(video', true)] /\
     db (world (call (VideoV2.handlerUploadVideo E cfg r) w)) = db_replace video' (db w) /\
     is_Some (VideoURL video') /\
     ID video' = ID video /\ UserID video' = UserID video /\
     ThumbnailURL video' = ThumbnailURL video /\ Descriptive video' = Descriptive video).
Proof.
  split; [|split]; intros Hok.
  - destruct (thumbnail_ok_inv E cfg r w Hok)
      as (videoID & userID & parts & p & video & ext &
          Hid & Hauth & Hbody & Hpart & Htype & Hdb & Hown & Hext & Hcall).
    exists videoID, video. eexists. rewrite Hcall. simpl.
    repeat match goal with |- _ /\ _ => split end; eauto.
  - destruct (video_v1_ok_inv E cfg r w Hok)
      as (videoID & userID & parts & p & video & name & bucket &
          Hid & Hauth & Hbody & Hpart & Htype & Hdb & Hown & Htmp & Hout & Hdb' & Hs3 & Htr).
    exists videoID, video. eexists. rewrite Hdb', Htr. simpl.
    repeat match goal with |- _ /\ _ => split end; eauto.
  - destruct (video_v2_ok_inv E cfg r w Hok)
      as (videoID & userID & parts & p & video & name & stream0 & remuxed &
          Hid & Hauth & Hbody & Hpart & Htype & Hdb & Hown & Htmp & Hout & Hdb' & Hs3 & Htr).
    exists videoID, video. eexists. rewrite Hdb', Htr. simpl.
    repeat match goal with |- _ /\ _ => split end; eauto.
Qed.

(** ** The size of a thumbnail *)

Lemma ReadForm_spills mm parts : forall budget p,
  (forall q, In q parts -> 0 <= part_len q) ->
  budget <= mm -> In p parts -> mm < part_len p ->
  In (part_len p, true) (stored_sizes (ReadForm budget parts)).
Proof.
  induction parts as [|q ps IH]; intros budget p Hpos Hb Hin Hlt; [destruct Hin|].
  simpl. destruct (budget <? part_len q) eqn:Hq; simpl.
  - destruct Hin as [-> | Hin]; [left; reflexivity|].
    right. apply IH; auto. intros q' Hq'. apply Hpos. right. exact Hq'.
  - destruct Hin as [-> | Hin]; [apply Z.ltb_ge in Hq; lia|].
    right. apply IH; auto.
    + intros q' Hq'. apply Hpos. right. exact Hq'.
    + specialize (Hpos q (or_introl eq_refl)). lia.
Qed.

Lemma upload_part_In r key parts p :
  read_body (Body r) = Some parts -> upload_part r key = Some p -> In p parts.
Proof.
  intros Hb Hp. unfold upload_part in Hp. rewrite Hb in Hp. simpl in Hp.
  apply find_some in Hp. tauto.
Qed.

(** What C3 says of thumbnails, and the code does not do: a body over
    10 MiB goes through.  Shared by the amended statement and by the
    counterexample. *)
Lemma thumbnail_any_size E cfg r w videoID userID parts p video ext :
  uuid_Parse E (PathValue r "videoID") = Some videoID ->
  authenticate E cfg r = Some userID ->
  read_body (Body r) = Some parts ->
  upload_part r "thumbnail" = Some p ->
  (declared_type E p = "image/jpeg" \/ declared_type E p = "image/png") ->
  strings_Split (declared_type E p) "/" !! 1%nat = Some ext ->
  db_find videoID (db w) = Some video ->
  UserID video = userID ->
  readAll_fails E = false -> getVideo_fails E = false -> create_fails E = false ->
  copy_fails E = false -> updateVideo_fails E = false ->
  let res := call (handlerUploadThumbnail E cfg r) w in
  let path := filepath_Join E (assetsRoot cfg) (uuid_String E videoID +:+ "." +:+ ext) in
  http_status (trace res) = Some 200 /\
  (exists stored,
     In (EvReadForm stored) (trace res) /\
     (Z.shiftl 10 20 < part_len p -> In (part_len p, true) stored)) /\
  In (EvReadAll (part_len p)) (trace res) /\
  In (EvWrite path (part_len p)) (trace res) /\
  fs (world res) !! path = Some (Data p).
Proof.
  intros Hid Hauth Hbody Hpart Htype Hext Hdb Hown Hread Hget Hcreate Hcopy Hupd res path.
  subst res path.
  rewrite (thumbnail_ok_run E cfg r w videoID userID parts p video ext) by assumption.
  cbn [trace world fs].
  split; [reflexivity|]. split; [|split; [|split]].
  - eexists. split; [left; reflexivity|]. intros Hbig.
    apply (ReadForm_spills (Z.shiftl 10 20)); eauto using upload_part_In; try lia.
    intros q _. unfold part_len. lia.
  - right. left. reflexivity.
  - do 4 right. left. reflexivity.
  - apply lookup_insert_eq.
Qed.

(** C3, as the code has it for thumbnails.  The 10 MiB of the thumbnail
    handler are the memory budget of the multipart parser, not a ceiling on
    the body: an upload is never turned down for its size.  When every other
    step succeeds the handler answers 200 whatever the size of the file; a
    file over 10 MiB is stored on disk by the parser, then read whole into
    memory and written whole to the asset file. *)
Theorem thumbnail_size_is_not_limited E cfg r w videoID userID parts p video ext :
  uuid_Parse E (PathValue r "videoID") = Some videoID ->
  authenticate E cfg r = Some userID ->
  read_body (Body r) = Some parts ->
  upload_part r "thumbnail" = Some p ->
  (declared_type E p = "image/jpeg" \/ declared_type E p = "image/png") ->
  strings_Split (declared_type E p) "/" !! 1%nat = Some ext ->
  db_find videoID (db w) = Some video ->
  UserID video = userID ->
  readAll_fails E = false -> getVideo_fails E = false -> create_fails E = false ->
  copy_fails E = false -> updateVideo_fails E = false ->
  let res := call (handlerUploadThumbnail E cfg r) w in
  let path := filepath_Join E (assetsRoot cfg) (uuid_String E videoID +:+ "." +:+ ext) in
  http_status (trace res) = Some 200 /\
  (exists stored,
     In (EvReadForm stored) (trace res) /\
     (Z.shiftl 10 20 < part_len p -> In (part_len p, true) stored)) /\
  In (EvReadAll (part_len p)) (trace res) /\
  In (EvWrite path (part_len p)) (trace res) /\
  fs (world res) !! path = Some (Data p).
Proof. exact (thumbnail_any_size E cfg r w videoID userID parts p video ext). Qed.

(** *** Examples with the concrete environment *)

Import Fixture.

Lemma big_thumbnail_length : Z.of_nat (length big_thumbnail) = 10 * 2 ^ 20 + 1.
Proof.
  unfold big_thumbnail. rewrite repeat_length. apply Z2Nat.id. lia.
Qed.

(** C3 is false as stated: a thumbnail of 10 MiB and one byte, sent by the
    owner as [image/png], is not rejected.  The parser stores it on disk, the
    handler reads all of it, writes all of it to the asset file and answers
    200. *)
Lemma thumbnail_over_ceiling_accepted :
  let r := request "alice.jwt" "image/png" "thumbnail" big_thumbnail in
  let res := call (handlerUploadThumbnail (env None false) cfg r) world0 in
  let n := Z.of_nat (length big_thumbnail) in
  10 * 2 ^ 20 < n /\
  http_status (trace res) = Some 200 /\
  (exists stored, In (EvReadForm stored) (trace res) /\ In (n, true) stored) /\
  In (EvReadAll n) (trace res) /\
  In (EvWrite thumbnail_path n) (trace res) /\
  fs (world res) !! thumbnail_path = Some big_thumbnail.
Proof.
  pose proof big_thumbnail_length as Hlen.
  pose proof (thumbnail_any_size (env None false) cfg
                (request "alice.jwt" "image/png" "thumbnail" big_thumbnail) world0
                vid alice
                [mkPart "thumbnail" "image/png" big_thumbnail]
                (mkPart "thumbnail" "image/png" big_thumbnail) video0 "png") as H.
  lazy zeta in H.
  specialize (H eq_refl eq_refl eq_refl eq_refl (or_intror eq_refl) eq_refl eq_refl eq_refl
                eq_refl eq_refl eq_refl eq_refl eq_refl).
  destruct H as (Hst & (stored & Hin & Hbig) & Hread & Hwrite & Hfs).
  lazy zeta.
  split; [lia|]. split; [exact Hst|]. split; [|split; [exact Hread|split; [exact Hwrite|exact Hfs]]].
  exists stored. split; [exact Hin|]. apply Hbig.
  change (part_len (mkPart "thumbnail" "image/png" big_thumbnail))
    with (Z.of_nat (length big_thumbnail)).
  rewrite Hlen. reflexivity.
Qed.

Ltac evaluate := lazy zeta; vm_compute; repeat split; auto 20.

(** C1 fails on the code.  bob uploads a video for the record of alice: the
    second revision of the handler answers 401 and goes on, since the
    ownership check has no [return].  It writes the temporary file, runs
    both external programs, puts the object and commits the record.  The
    first revision does the same. *)
Theorem nonowner_video_upload_goes_through :
  let r := request "bob.jwt" "video/mp4" "video" mp4 in
  let E := env (Some (probe_json "16:9")) false in
  let res := call (VideoV2.handlerUploadVideo E cfg r) world0 in
  let res1 := call (VideoV1.handlerUploadVideo E cfg r) world0 in
  authenticate E cfg r = Some bob /\
  db_find vid (db world0) = Some video0 /\ UserID video0 = alice /\ bob <> alice /\
  http_status (trace res) = Some 401 /\
  In (EvCreateTemp tmp_name) (trace res) /\
  In (EvWrite tmp_name 7) (trace res) /\
  In (EvExec "ffprobe" (probe_args tmp_name)) (trace res) /\
  In (EvExec "ffmpeg" (remux_args tmp_name (tmp_name +:+ ".processing"))) (trace res) /\
  In (EvPutObject "tubely" landscape_key true) (trace res) /\
  In (EvUpdateVideo (set_VideoURL video0 (bucket_url landscape_key)) true) (trace res) /\
  s3 (world res) !! landscape_key = Some ("video/mp4", mp4) /\
  db_find vid (db (world res)) = Some (set_VideoURL video0 (bucket_url landscape_key)) /\
  http_status (trace res1) = Some 401 /\
  In (EvPutObject "tubely" landscape_key true) (trace res1) /\
  db_find vid (db (world res1)) = Some (set_VideoURL video0 (bucket_url landscape_key)).
Proof. evaluate. discriminate. Qed.

(** C2 fails on the code.  alice uploads a file that the probe cannot read:
    the second revision answers 500 for the probe and goes on to commit the
    record.  bob uploads for the record of alice: the first revision answers
    401 and commits.  In both the client is told of a failure and the record
    has changed. *)
Theorem error_response_with_commit :
  let E := env None false in
  let res := call (VideoV2.handlerUploadVideo E cfg
                     (request "alice.jwt" "video/mp4" "video" mp4)) world0 in
  let res1 := call (VideoV1.handlerUploadVideo (env (Some (probe_json "9:16")) false) cfg
                      (request "bob.jwt" "video/mp4" "video" mp4)) world0 in
  db_find vid (db world0) = Some video0 /\ VideoURL video0 = None /\
  http_status (trace res) = Some 500 /\
  In (EvRespond 500 (ErrorBody "Couldn't get aspect ratio")) (trace res) /\
  commits (trace res) = [(set_VideoURL video0 (bucket_url unprobed_key), true)] /\
  db_find vid (db (world res)) ≫= VideoURL = Some (bucket_url unprobed_key) /\
  http_status (trace res1) = Some 401 /\
  db_find vid (db (world res1)) ≫= VideoURL
    = Some (bucket_url
              "portrait/2a2a2a2a2a2a2a2a2a2a2a2a2a2a2a2a2a2a2a2a2a2a2a2a2a2a2a2a2a2a2a2a.mp4").
Proof. evaluate. Qed.

(** C5 fails on the code.  The probe exits with an error.  The first
    revision ignores the error: it answers 200, having published the object
    and committed the record under the empty aspect bucket.  The second
    revision reports the error and then does the same. *)
Theorem probe_failure_is_not_fatal :
  let E := env None false in
  let r := request "alice.jwt" "video/mp4" "video" mp4 in
  let res1 := call (VideoV1.handlerUploadVideo E cfg r) world0 in
  let res2 := call (VideoV2.handlerUploadVideo E cfg r) world0 in
  ffprobe E (Some mp4) = None /\
  http_status (trace res1) = Some 200 /\
  responses (trace res1) = [200] /\
  In (EvPutObject "tubely" unprobed_key true) (trace res1) /\
  s3 (world res1) !! unprobed_key = Some ("video/mp4", mp4) /\
  db_find vid (db (world res1)) = Some (set_VideoURL video0 (bucket_url unprobed_key)) /\
  responses (trace res2) = [500; 200] /\
  In (EvPutObject "tubely" unprobed_key true) (trace res2) /\
  s3 (world res2) !! unprobed_key = Some ("video/mp4", mp4) /\
  db_find vid (db (world res2)) = Some (set_VideoURL video0 (bucket_url unprobed_key)).
Proof. evaluate. Qed.


(** *** Witnesses *)


Lemma aspect_ratio_panics_without_streams_witness :
  let E := env (Some probe_no_streams) false in
  let s := mkSt world0 [] [] None in
  ffprobe E (fs (st_world s) !! tmp_name) = Some probe_no_streams /\
  json_Unmarshal E probe_no_streams = Some (mkVideoData []) /\
  (getVideoAspectRatio E tmp_name s).1 = Panic_ /\
  outcome (call (VideoV2.handlerUploadVideo E cfg
                   (request "alice.jwt" "video/mp4" "video" mp4)) world0) = Panicked.
Proof.
  lazy zeta. split; [reflexivity|]. split; [vm_compute; reflexivity|]. split.
  - apply (aspect_ratio_panics_without_streams (env (Some probe_no_streams) false) tmp_name
             (mkSt world0 [] [] None) probe_no_streams (mkVideoData []));
      [reflexivity | vm_compute; reflexivity | reflexivity].
  - vm_compute. reflexivity.
Defined.

Lemma thumbnail_url_deterministic_witness :
  let E := env None false in
  let r := request "alice.jwt" "image/png" "thumbnail" mp4 in
  http_status (trace (call (handlerUploadThumbnail E cfg r) world0)) = Some 200 /\
  exists videoID p ext video,
    uuid_Parse E (PathValue r "videoID") = Some videoID /\
    upload_part r "thumbnail" = Some p /\
    declared_type E p = "image/" +:+ ext /\
    db_find videoID (db world0) = Some video /\
    authenticate E cfg r = Some (UserID video) /\
    let url := "http://localhost:8091" +:+ "/assets/" +:+ uuid_String E videoID
               +:+ "." +:+ ext in
    db_find videoID (db (world (call (handlerUploadThumbnail E cfg r) world0))) =
      Some (mkVideo (ID video) (UserID video) (Some url) (VideoURL video)
                    (Descriptive video)) /\
    forall r' w',
      http_status (trace (call (handlerUploadThumbnail E cfg r') w')) = Some 200 ->
      PathValue r' "videoID" = PathValue r "videoID" ->
      declared_type E <$> upload_part r' "thumbnail" =
        declared_type E <$> upload_part r "thumbnail" ->
      db_find videoID (db (world (call (handlerUploadThumbnail E cfg r') w')))
        ≫= ThumbnailURL = Some url.
Proof.
  lazy zeta. split; [vm_compute; reflexivity|].
  apply (thumbnail_url_deterministic (env None false) cfg
           (request "alice.jwt" "image/png" "thumbnail" mp4) world0).
  vm_compute. reflexivity.
Defined.

Lemma video_publish_before_commit_witness :
  let r := request "alice.jwt" "video/mp4" "video" mp4 in
  let probe := Some (probe_json "16:9") in
  let res := call (VideoV2.handlerUploadVideo (env probe false) cfg r) world0 in
  let res' := call (VideoV1.handlerUploadVideo (env probe true) cfg r) world0 in
  (exists pre post,
     trace res = pre ++ EvUpdateVideo (set_VideoURL video0 (bucket_url landscape_key)) true
                        :: post /\
     exists key,
       In (EvPutObject (s3Bucket cfg) key true) pre /\
       VideoURL (set_VideoURL video0 (bucket_url landscape_key)) = Some (video_url cfg key) /\
       is_Some (s3 (world res) !! key)) /\
  In (EvPutObject "tubely" landscape_key false) (trace res') /\
  (forall v ok, ~ In (EvUpdateVideo v ok) (trace res')) /\
  db (world res') = db world0.
Proof.
  lazy zeta. split; [|split].
  - exists [EvGetVideo vid; EvReadForm [(7, false)];
            EvCreateTemp tmp_name; EvWrite tmp_name 7;
            EvExec "ffprobe" (probe_args tmp_name);
            EvExec "ffmpeg" (remux_args tmp_name (tmp_name +:+ ".processing"));
            EvOpen (tmp_name +:+ ".processing");
            EvPutObject "tubely" landscape_key true],
           [EvRespond 200 (VideoBody (set_VideoURL video0 (bucket_url landscape_key)));
            EvClose; EvRemove (tmp_name +:+ ".processing"); EvClose;
            EvRemove tmp_name; EvClose].
    split; [vm_compute; reflexivity|].
    eapply (proj1 (video_publish_before_commit (env (Some (probe_json "16:9")) false) cfg
                     (request "alice.jwt" "video/mp4" "video" mp4) world0 _
                     (or_intror eq_refl))).
    vm_compute. reflexivity.
  - vm_compute. auto 20.
  - apply (proj2 (video_publish_before_commit (env (Some (probe_json "16:9")) true) cfg
                    (request "alice.jwt" "video/mp4" "video" mp4) world0 _
                    (or_introl eq_refl)) "tubely" landscape_key).
    vm_compute. auto 20.
Defined.

Lemma successful_upload_frame_witness :
  let E := env (Some (probe_json "4:3")) false in
  let rt := request "alice.jwt" "image/jpeg" "thumbnail" mp4 in
  let rv := request "alice.jwt" "video/mp4" "video" mp4 in
  (http_status (trace (call (handlerUploadThumbnail E cfg rt) world0)) = Some 200 /\
   exists videoID video video',
     uuid_Parse E (PathValue rt "videoID") = Some videoID /\
     db_find videoID (db world0) = Some video /\
     commits (trace (call (handlerUploadThumbnail E cfg rt) world0)) = [(video', true)] /\
     db (world (call (handlerUploadThumbnail E cfg rt) world0)) = db_replace video' (db world0) /\
     is_Some (ThumbnailURL video') /\
     ID video' = ID video /\ UserID video' = UserID video /\
     VideoURL video' = VideoURL video /\ Descriptive video' = Descriptive video) /\
  (http_status (trace (call (VideoV1.handlerUploadVideo E cfg rv) world0)) = Some 200 /\
   exists videoID video video',
     uuid_Parse E (PathValue rv "videoID") = Some videoID /\
     db_find videoID (db world0) = Some video /\
     commits (trace (call (VideoV1.handlerUploadVideo E cfg rv) world0)) = [(video', true)] /\
     db (world (call (VideoV1.handlerUploadVideo E cfg rv) world0)) = db_replace video' (db world0) /\
     is_Some (VideoURL video') /\
     ID video' = ID video /\ UserID video' = UserID video /\
     ThumbnailURL video' = ThumbnailURL video /\ Descriptive video' = Descriptive video) /\
  (http_status (trace (call (VideoV2.handlerUploadVideo E cfg rv) world0)) = Some 200 /\
   exists videoID video video',
     uuid_Parse E (PathValue rv "videoID") = Some videoID /\
     db_find videoID (db world0) = Some video /\
     commits (trace (call (VideoV2.handlerUploadVideo E cfg rv) world0)) = [(video', true)] /\
     db (world (call (VideoV2.handlerUploadVideo E cfg rv) world0)) = db_replace video' (db world0) /\
     is_Some (VideoURL video') /\
     ID video' = ID video /\ UserID video' = UserID video /\
     ThumbnailURL video' = ThumbnailURL video /\ Descriptive video' = Descriptive video).
Proof.
  lazy zeta.
  pose proof (successful_upload_frame (env (Some (probe_json "4:3")) false) cfg
                (request "alice.jwt" "image/jpeg" "thumbnail" mp4) world0) as Ht.
  pose proof (successful_upload_frame (env (Some (probe_json "4:3")) false) cfg
                (request "alice.jwt" "video/mp4" "video" mp4) world0) as Hv.
  destruct Ht as (Ht & _ & _). destruct Hv as (_ & Hv1 & Hv2).
  split; [|split]; (split; [vm_compute; reflexivity|]).
  - apply Ht. vm_compute. reflexivity.
  - apply Hv1. vm_compute. reflexivity.
  - apply Hv2. vm_compute. reflexivity.
Defined.

Lemma thumbnail_size_is_not_limited_witness :
  let E := env None false in
  let r := request "alice.jwt" "image/jpeg" "thumbnail" mp4 in
  let p := mkPart "thumbnail" "image/jpeg" mp4 in
  let res := call (handlerUploadThumbnail E cfg r) world0 in
  let path := filepath_Join E (assetsRoot cfg) (uuid_String E vid +:+ "." +:+ "jpeg") in
  upload_part r "thumbnail" = Some p /\
  declared_type E p = "image/jpeg" /\
  db_find vid (db world0) = Some video0 /\
  authenticate E cfg r = Some (UserID video0) /\
  http_status (trace res) = Some 200 /\
  (exists stored,
     In (EvReadForm stored) (trace res) /\
     (Z.shiftl 10 20 < part_len p -> In (part_len p, true) stored)) /\
  In (EvReadAll (part_len p)) (trace res) /\
  In (EvWrite path (part_len p)) (trace res) /\
  fs (world res) !! path = Some (Data p).
Proof.
  lazy zeta.
  split; [reflexivity|]. split; [reflexivity|]. split; [reflexivity|].
  split; [reflexivity|].
  apply (thumbnail_size_is_not_limited (env None false) cfg
           (request "alice.jwt" "image/jpeg" "thumbnail" mp4) world0 vid alice
           [mkPart "thumbnail" "image/jpeg" mp4] (mkPart "thumbnail" "image/jpeg" mp4)
           video0 "jpeg"); try reflexivity.
  left. reflexivity.
Defined.

(** * Further properties of the handlers *)

(** ** The thumbnail handler on every path *)



Lemma image_type_has_ext (mt : string) :
  mt = "image/jpeg" \/ mt = "image/png" -> strings_Split mt "/" !! 1%nat <> None.
Proof. intros [-> | ->]; vm_compute; discriminate. Qed.

Ltac no_ext_contradiction :=
  match goal with
  | H : negb _ && negb _ = false, H' : strings_Split _ _ !! _ = None |- _ =>
      exfalso; apply image_type_allowed in H;
      exact (image_type_has_ext _ H H')
  end.

(** X2. The thumbnail handler never panics and writes exactly one response
    on every path; it never touches the bucket. *)
Theorem thumbnail_answers_once E cfg r w :
  let res := call (handlerUploadThumbnail E cfg r) w in
  outcome res = Done /\
  (exists code, responses (trace res) = [code]) /\
  s3 (world res) = s3 w.
Proof.
  lazy zeta. run_call; try no_ext_contradiction; simpl; eauto.
Qed.

(** X3. A thumbnail upload that is not answered with 200 leaves the record
    store as it was, even when the asset file has already been written; and
    no call changes the row of another video. *)
Theorem thumbnail_store_frame E cfg r w :
  let res := call (handlerUploadThumbnail E cfg r) w in
  (http_status (trace res) <> Some 200 -> db (world res) = db w) /\
  (forall videoID id',
     uuid_Parse E (PathValue r "videoID") = Some videoID -> id' <> videoID ->
     db_find id' (db (world res)) = db_find id' (db w)).
Proof.
  lazy zeta. run_call; try no_ext_contradiction; simpl;
    (split; [intros Hst; first [reflexivity | contradiction Hst; reflexivity]
            |intros videoID id' Hid Hne; simplify_eq; try reflexivity]).
  apply db_find_replace_other. simpl.
  match goal with H : db_find _ _ = Some _ |- _ => rewrite (db_find_ID _ _ _ H) end.
  congruence.
Qed.


Lemma thumbnail_store_frame_witness :
  let E := env None false in
  let other := mkVideo 9%N bob None None [] in
  let w := mkWorld [video0; other] ∅ ∅ in
  let bad := call (handlerUploadThumbnail E cfg
                     (request "alice.jwt" "image/gif" "thumbnail" mp4)) w in
  let good := call (handlerUploadThumbnail E cfg
                      (request "alice.jwt" "image/png" "thumbnail" mp4)) w in
  http_status (trace bad) = Some 415 /\ db (world bad) = db w /\
  http_status (trace good) = Some 200 /\
  db_find 9%N (db (world good)) = Some other.
Proof.
  lazy zeta. split; [vm_compute; reflexivity|]. split.
  - apply (proj1 (thumbnail_store_frame (env None false) cfg
                    (request "alice.jwt" "image/gif" "thumbnail" mp4)
                    (mkWorld [video0; mkVideo 9%N bob None None []] ∅ ∅))).
    vm_compute. discriminate.
  - split; [vm_compute; reflexivity|].
    rewrite (proj2 (thumbnail_store_frame (env None false) cfg
                      (request "alice.jwt" "image/png" "thumbnail" mp4)
                      (mkWorld [video0; mkVideo 9%N bob None None []] ∅ ∅)) vid 9%N);
      [reflexivity | reflexivity | discriminate].
Defined.

(** X4. After a successful thumbnail upload the asset file whose name ends
    the committed URL holds exactly the uploaded bytes. *)
Theorem thumbnail_file_matches_url E cfg r w :
  let res := call (handlerUploadThumbnail E cfg r) w in
  http_status (trace res) = Some 200 ->
  exists videoID p filename,
    uuid_Parse E (PathValue r "videoID") = Some videoID /\
    upload_part r "thumbnail" = Some p /\
    fs (world res) !! filepath_Join E (assetsRoot cfg) filename = Some (Data p) /\
    db_find videoID (db (world res)) ≫= ThumbnailURL
      = Some ("http://localhost:8091/assets/" +:+ filename).
Proof.
  lazy zeta. intros Hok.
  destruct (thumbnail_ok_inv E cfg r w Hok)
    as (videoID & userID & parts & p & video & ext &
        Hid & Hauth & Hbody & Hpart & Htype & Hdb & Hown & Hext & Hcall).
  exists videoID, p, (uuid_String E videoID +:+ "." +:+ ext).
  rewrite Hcall. cbn [world fs db].
  repeat split; try assumption.
  - apply lookup_insert_eq.
  - erewrite db_find_replace; [reflexivity | eassumption | simpl; eauto using db_find_ID].
Qed.

Lemma thumbnail_file_matches_url_witness :
  let E := env None false in
  let r := request "alice.jwt" "image/png" "thumbnail" mp4 in
  let res := call (handlerUploadThumbnail E cfg r) world0 in
  http_status (trace res) = Some 200 /\
  exists videoID p filename,
    uuid_Parse E (PathValue r "videoID") = Some videoID /\
    upload_part r "thumbnail" = Some p /\
    fs (world res) !! filepath_Join E (assetsRoot cfg) filename = Some (Data p) /\
    db_find videoID (db (world res)) ≫= ThumbnailURL
      = Some ("http://localhost:8091/assets/" +:+ filename).
Proof.
  lazy zeta. split; [vm_compute; reflexivity|].
  apply (thumbnail_file_matches_url (env None false) cfg
           (request "alice.jwt" "image/png" "thumbnail" mp4) world0).
  vm_compute. reflexivity.
Defined.

(** X5. Two successful thumbnail uploads in a row for the same video: the
    record ends with the URL of the second and the file of the second holds
    its bytes.  The file of the first is overwritten when both have the same
    name (same media type) and is left behind, untouched, when they have
    not: no upload removes the file of an earlier one. *)
Theorem thumbnail_reupload E cfg r1 r2 w :
  let res1 := call (handlerUploadThumbnail E cfg r1) w in
  let res2 := call (handlerUploadThumbnail E cfg r2) (world res1) in
  http_status (trace res1) = Some 200 ->
  http_status (trace res2) = Some 200 ->
  PathValue r2 "videoID" = PathValue r1 "videoID" ->
  exists videoID p1 p2 f1 f2,
    uuid_Parse E (PathValue r1 "videoID") = Some videoID /\
    upload_part r1 "thumbnail" = Some p1 /\
    upload_part r2 "thumbnail" = Some p2 /\
    fs (world res1) !! filepath_Join E (assetsRoot cfg) f1 = Some (Data p1) /\
    fs (world res2) !! filepath_Join E (assetsRoot cfg) f2 = Some (Data p2) /\
    (filepath_Join E (assetsRoot cfg) f1 <> filepath_Join E (assetsRoot cfg) f2 ->
     fs (world res2) !! filepath_Join E (assetsRoot cfg) f1 = Some (Data p1)) /\
    (declared_type E p1 = declared_type E p2 -> f1 = f2) /\
    db_find videoID (db (world res2)) ≫= ThumbnailURL
      = Some ("http://localhost:8091/assets/" +:+ f2).
Proof.
  lazy zeta. intros Hok1 Hok2 Hpath.
  destruct (thumbnail_ok_inv E cfg r1 w Hok1)
    as (videoID & userID & parts & p1 & video & ext1 &
        Hid & Hauth & Hbody & Hpart & Htype & Hdb & Hown & Hext & Hcall).
  destruct (thumbnail_ok_inv E cfg r2 _ Hok2)
    as (videoID' & userID' & parts' & p2 & video' & ext2 &
        Hid' & Hauth' & Hbody' & Hpart' & Htype' & Hdb' & Hown' & Hext' & Hcall').
  rewrite Hpath, Hid in Hid'. injection Hid' as <-.
  exists videoID, p1, p2, (uuid_String E videoID +:+ "." +:+ ext1),
         (uuid_String E videoID +:+ "." +:+ ext2).
  rewrite Hcall'. cbn [world fs db]. rewrite Hcall. cbn [world fs db].
  rewrite Hcall in Hdb'. cbn [world db] in Hdb'.
  repeat match goal with |- _ /\ _ => split end; try assumption.
  - apply lookup_insert_eq.
  - apply lookup_insert_eq.
  - intros Hne. rewrite !lookup_insert_ne by congruence. apply lookup_insert_eq.
  - intros Hsame. rewrite Hsame in Hext. congruence.
  - erewrite db_find_replace; [reflexivity | eassumption | simpl; eauto using db_find_ID].
Qed.

Lemma thumbnail_reupload_witness :
  let E := env None false in
  let r1 := request "alice.jwt" "image/png" "thumbnail" mp4 in
  let r2 := request "alice.jwt" "image/jpeg" "thumbnail" (bytes "JPEG") in
  let res1 := call (handlerUploadThumbnail E cfg r1) world0 in
  let res2 := call (handlerUploadThumbnail E cfg r2) (world res1) in
  http_status (trace res1) = Some 200 /\
  http_status (trace res2) = Some 200 /\
  exists videoID p1 p2 f1 f2,
    uuid_Parse E (PathValue r1 "videoID") = Some videoID /\
    upload_part r1 "thumbnail" = Some p1 /\
    upload_part r2 "thumbnail" = Some p2 /\
    fs (world res1) !! filepath_Join E (assetsRoot cfg) f1 = Some (Data p1) /\
    fs (world res2) !! filepath_Join E (assetsRoot cfg) f2 = Some (Data p2) /\
    (filepath_Join E (assetsRoot cfg) f1 <> filepath_Join E (assetsRoot cfg) f2 ->
     fs (world res2) !! filepath_Join E (assetsRoot cfg) f1 = Some (Data p1)) /\
    (declared_type E p1 = declared_type E p2 -> f1 = f2) /\
    db_find videoID (db (world res2)) ≫= ThumbnailURL
      = Some ("http://localhost:8091/assets/" +:+ f2).
Proof.
  lazy zeta. split; [vm_compute; reflexivity|]. split; [vm_compute; reflexivity|].
  apply (thumbnail_reupload (env None false) cfg
           (request "alice.jwt" "image/png" "thumbnail" mp4)
           (request "alice.jwt" "image/jpeg" "thumbnail" (bytes "JPEG")) world0);
    [vm_compute; reflexivity | vm_compute; reflexivity | reflexivity].
Defined.

(** ** Rejections before any input or output *)

(** Run a call, dropping a path as soon as its assumptions contradict one
    another. *)
Ltac run_call_pruned :=
  lazymatch goal with
  | |- context [call ?body ?w] =>
      pattern (call body w); apply call_wp;
      unfold handlerUploadThumbnail, VideoV1.handlerUploadVideo,
        VideoV2.handlerUploadVideo;
      repeat (step; try congruence)
  end.

(** X6. In all three handlers a path identifier that does not parse is
    answered with 400, and a credential that is missing or invalid with 401,
    before the body is read, the record store asked or anything written: the
    response is the only event and the world is as it was. *)
Theorem rejected_before_any_io E cfg r w :
  (uuid_Parse E (PathValue r "videoID") = None ->
   call (handlerUploadThumbnail E cfg r) w
     = mkResult Done w [EvRespond 400 (ErrorBody "Invalid ID")] /\
   call (VideoV1.handlerUploadVideo E cfg r) w
     = mkResult Done w [EvRespond 400 (ErrorBody "Invalid ID")] /\
   call (VideoV2.handlerUploadVideo E cfg r) w
     = mkResult Done w [EvRespond 400 (ErrorBody "Invalid video ID")]) /\
  (forall videoID,
     uuid_Parse E (PathValue r "videoID") = Some videoID ->
     authenticate E cfg r = None ->
     (exists msg, call (handlerUploadThumbnail E cfg r) w
                  = mkResult Done w [EvRespond 401 (ErrorBody msg)]) /\
     (exists msg, call (VideoV1.handlerUploadVideo E cfg r) w
                  = mkResult Done w [EvRespond 401 (ErrorBody msg)]) /\
     call (VideoV2.handlerUploadVideo E cfg r) w
       = mkResult Done w [EvRespond 401 (ErrorBody "Invalid user ID")]).
Proof.
  split.
  - intros Hid. repeat split; run_call_pruned; reflexivity.
  - intros videoID Hid Hauth.
    assert (Hcases : GetBearerToken E (Header r) = None \/
                     exists t, GetBearerToken E (Header r) = Some t /\
                               ValidateJWT E t (jwtSecret cfg) = None).
    { unfold authenticate in Hauth.
      destruct (GetBearerToken E (Header r)) as [t|]; eauto. }
    repeat split.
    + destruct Hcases as [Htok | (t & Htok & Hjwt)];
        run_call_pruned; simplify_eq; try congruence; eexists; reflexivity.
    + destruct Hcases as [Htok | (t & Htok & Hjwt)];
        run_call_pruned; simplify_eq; try congruence; eexists; reflexivity.
    + run_call_pruned; reflexivity.
Qed.

Lemma rejected_before_any_io_witness :
  let E := env None false in
  let r := request "mallory.jwt" "video/mp4" "video" mp4 in
  uuid_Parse E (PathValue r "videoID") = Some vid /\
  authenticate E cfg r = None /\
  (exists msg, call (handlerUploadThumbnail E cfg r) world0
               = mkResult Done world0 [EvRespond 401 (ErrorBody msg)]) /\
  (exists msg, call (VideoV1.handlerUploadVideo E cfg r) world0
               = mkResult Done world0 [EvRespond 401 (ErrorBody msg)]) /\
  call (VideoV2.handlerUploadVideo E cfg r) world0
    = mkResult Done world0 [EvRespond 401 (ErrorBody "Invalid user ID")].
Proof.
  lazy zeta. split; [reflexivity|]. split; [reflexivity|].
  apply (proj2 (rejected_before_any_io (env None false) cfg
                  (request "mallory.jwt" "video/mp4" "video" mp4) world0) vid);
    reflexivity.
Defined.

(** ** Staged files of the video handlers *)




(** ** Panics of the video handlers *)

Ltac panic_leaf :=
  simpl; intros Hp; try discriminate Hp;
  repeat match goal with
         | H : ffprobe _ (fs _ !! _) = _ |- _ =>
             simpl in H; rewrite lookup_insert_eq in H
         end;
  eauto 10.

(** X8. The only ways a call of a video handler panics: the temporary file
    cannot be created (the handler answers 500 and then dereferences the nil
    file), or the probe output decodes to a value without streams; and, in
    the first revision only, the upload has no file under [video] (the close
    of the nil file is deferred before the error is tested). *)
Theorem video_panics_only_when E cfg r w :
  (outcome (call (VideoV2.handlerUploadVideo E cfg r) w) = Panicked ->
   createTemp E = None \/
   exists p out data,
     upload_part r "video" = Some p /\
     ffprobe E (Some (Data p)) = Some out /\ json_Unmarshal E out = Some data /\
     Streams data = []) /\
  (outcome (call (VideoV1.handlerUploadVideo E cfg r) w) = Panicked ->
   upload_part r "video" = None \/ createTemp E = None \/
   exists p out data,
     upload_part r "video" = Some p /\
     ffprobe E (Some (Data p)) = Some out /\ json_Unmarshal E out = Some data /\
     Streams data = []).
Proof.
  split; run_call; panic_leaf.
  all: eauto 10 using upload_part_unreadable.
Qed.

Lemma video_panics_only_when_witness :
  let E := env (Some probe_no_streams) false in
  let r := request "alice.jwt" "video/mp4" "video" mp4 in
  outcome (call (VideoV2.handlerUploadVideo E cfg r) world0) = Panicked /\
  (createTemp E = None \/
   exists p out data,
     upload_part r "video" = Some p /\
     ffprobe E (Some (Data p)) = Some out /\ json_Unmarshal E out = Some data /\
     Streams data = []).
Proof.
  lazy zeta. split; [vm_compute; reflexivity|].
  apply (proj1 (video_panics_only_when (env (Some probe_no_streams) false) cfg
                  (request "alice.jwt" "video/mp4" "video" mp4) world0)).
  vm_compute. reflexivity.
Defined.

(** ** The two external programs *)

Lemma string_length_app (a b : string) :
  String.length (a +:+ b) = (String.length a + String.length b)%nat.
Proof. induction a as [|c a IH]; simpl; [reflexivity|]. rewrite IH. reflexivity. Qed.

Lemma processing_name_differs (path : string) : path +:+ ".processing" <> path.
Proof.
  intros H. apply (f_equal String.length) in H.
  rewrite string_length_app in H. simpl in H. lia.
Qed.

(** X9. [processVideoForFastStart] runs ffmpeg once and has it write next
    to its input, never over it: the input file and every file other than
    [input.processing] are as before.  When ffmpeg succeeds the function
    returns that name with a nil error and the file holds the output; when
    it fails the function returns the empty name with an error. *)
Theorem remux_keeps_input E path s :
  let r := processVideoForFastStart E path s in
  let out_path := path +:+ ".processing" in
  st_trace r.2 = st_trace s ++ [EvExec "ffmpeg" (remux_args path out_path)] /\
  db (st_world r.2) = db (st_world s) /\
  s3 (st_world r.2) = s3 (st_world s) /\
  fs (st_world r.2) !! path = fs (st_world s) !! path /\
  (forall other, other <> out_path ->
     fs (st_world r.2) !! other = fs (st_world s) !! other) /\
  match ffmpeg E (fs (st_world s) !! path) with
  | Some out => r.1 = Next (out_path, None) /\ fs (st_world r.2) !! out_path = Some out
  | None => exists msg, r.1 = Next ("", Some msg)
  end.
Proof.
  lazy zeta. unfold processVideoForFastStart, mbind, M_bind, emit, get_world, act. simpl.
  destruct (ffmpeg E (fs (st_world s) !! path)) as [out|]; simpl.
  - repeat split; try reflexivity.
    + apply lookup_insert_ne, processing_name_differs.
    + intros other Hne. apply lookup_insert_ne. congruence.
    + apply lookup_insert_eq.
  - repeat split; eauto.
Qed.

(** X10. [getVideoAspectRatio] only observes: it runs the probe once and
    leaves the world and the deferred calls alone.  It returns an error, with
    the empty string for a bucket, exactly when the probe fails to run or
    its output does not decode; a nil error comes with one of the three
    buckets. *)
Theorem aspect_ratio_only_observes E path s :
  let r := getVideoAspectRatio E path s in
  st_world r.2 = st_world s /\
  st_defers r.2 = st_defers s /\
  st_trace r.2 = st_trace s ++ [EvExec "ffprobe" (probe_args path)] /\
  ((exists bucket msg, r.1 = Next (bucket, Some msg)) <->
   ffprobe E (fs (st_world s) !! path) = None \/
   exists out, ffprobe E (fs (st_world s) !! path) = Some out /\
               json_Unmarshal E out = None) /\
  (forall bucket msg, r.1 = Next (bucket, Some msg) -> bucket = "") /\
  (forall bucket, r.1 = Next (bucket, None) ->
     bucket = "landscape" \/ bucket = "portrait" \/ bucket = "other").
Proof.
  lazy zeta. unfold getVideoAspectRatio, mbind, M_bind, emit, get_world. simpl.
  destruct (ffprobe E (fs (st_world s) !! path)) as [out|] eqn:Hp; simpl;
    [destruct (json_Unmarshal E out) as [data|] eqn:Hj; simpl;
     [unfold index, deref;
      destruct (Streams data !! 0%nat) as [stream0|]; simpl;
      [destruct (DisplayAspectRatio stream0 =? "16:9")%string; simpl;
       [|destruct (DisplayAspectRatio stream0 =? "9:16")%string; simpl]|]|]|].
  all: repeat match goal with |- _ /\ _ => split end;
    first [ reflexivity
          | solve [intros b H; simplify_eq; auto]
          | solve [intros b m H; simplify_eq; auto]
          | split;
            [ intros (b & m & H); simplify_eq; eauto
            | intros [H | (o & H & H')]; simplify_eq; eauto ] ].
Qed.

Lemma remux_keeps_input_witness :
  let E := env None false in
  let s := mkSt (mkWorld [] {[ tmp_name := mp4 ]} ∅) [] [] None in
  let r := processVideoForFastStart E tmp_name s in
  r.1 = Next (tmp_name +:+ ".processing", None) /\
  fs (st_world r.2) !! tmp_name = Some mp4 /\
  fs (st_world r.2) !! (tmp_name +:+ ".processing") = Some mp4 /\
  fs (st_world r.2) !! thumbnail_path = None.
Proof.
  lazy zeta.
  destruct (remux_keeps_input (env None false) tmp_name
              (mkSt (mkWorld [] {[ tmp_name := mp4 ]} ∅) [] [] None))
    as (_ & _ & _ & Hin & Hother & Hout).
  change (ffmpeg (env None false)
            (fs (st_world (mkSt (mkWorld [] {[ tmp_name := mp4 ]} ∅) [] [] None))
               !! tmp_name))
    with (Some mp4) in Hout.
  destruct Hout as [Hret Hfile].
  split; [exact Hret|]. split; [rewrite Hin; reflexivity|]. split; [exact Hfile|].
  rewrite Hother by discriminate. reflexivity.
Defined.

Lemma aspect_ratio_only_observes_witness :
  let E := env None false in
  let s := mkSt world0 [] [DfCloseUpload] None in
  let r := getVideoAspectRatio E tmp_name s in
  ffprobe E (fs (st_world s) !! tmp_name) = None /\
  (exists bucket msg, r.1 = Next (bucket, Some msg)) /\
  st_world r.2 = world0 /\ st_defers r.2 = [DfCloseUpload].
Proof.
  lazy zeta.
  destruct (aspect_ratio_only_observes (env None false) tmp_name
              (mkSt world0 [] [DfCloseUpload] None))
    as (Hw & Hd & _ & Hiff & _ & _).
  split; [reflexivity|]. split; [apply Hiff; left; reflexivity|].
  split; [exact Hw|exact Hd].
Defined.

(** ** Object keys *)

Lemma unhex_hex_byte (b : byte) :
  match hex_byte b with
  | String hi (String lo EmptyString) => unhex_byte hi lo = Some b
  | _ => False
  end.
Proof. destruct b; reflexivity. Qed.

Lemma hex_byte_inj (b1 b2 : byte) : hex_byte b1 = hex_byte b2 -> b1 = b2.
Proof.
  intros H. pose proof (unhex_hex_byte b1) as H1. pose proof (unhex_hex_byte b2) as H2.
  rewrite H in H1.
  destruct (hex_byte b2) as [|hi [|lo [|]]]; try contradiction. congruence.
Qed.

Lemma hex_byte_shape (b : byte) :
  exists hi lo, hex_byte b = String hi (String lo EmptyString) /\ hi <> "."%char.
Proof. destruct b; eexists _, _; (split; [reflexivity|discriminate]). Qed.

Lemma fmt_x_inj (k1 : list byte) : forall k2,
  fmt_x k1 +:+ ".mp4" = fmt_x k2 +:+ ".mp4" -> k1 = k2.
Proof.
  induction k1 as [|b1 k1 IH]; intros [|b2 k2] H; [reflexivity| | |].
  - exfalso. destruct (hex_byte_shape b2) as (hi & lo & Hb & Hne).
    change (fmt_x (b2 :: k2)) with (hex_byte b2 +:+ fmt_x k2) in H.
    rewrite Hb in H. cbv [String.append fmt_x fold_right] in H. congruence.
  - exfalso. destruct (hex_byte_shape b1) as (hi & lo & Hb & Hne).
    change (fmt_x (b1 :: k1)) with (hex_byte b1 +:+ fmt_x k1) in H.
    rewrite Hb in H. cbv [String.append fmt_x fold_right] in H. congruence.
  - change (fmt_x (b1 :: k1)) with (hex_byte b1 +:+ fmt_x k1) in H.
    change (fmt_x (b2 :: k2)) with (hex_byte b2 +:+ fmt_x k2) in H.
    destruct (hex_byte_shape b1) as (h1 & l1 & Hb1 & _).
    destruct (hex_byte_shape b2) as (h2 & l2 & Hb2 & _).
    rewrite Hb1, Hb2 in H.
    change (String h1 (String l1 (fmt_x k1 +:+ ".mp4"))
            = String h2 (String l2 (fmt_x k2 +:+ ".mp4"))) in H.
    injection H as Hh Hl Hrest.
    f_equal; [|exact (IH _ Hrest)].
    apply hex_byte_inj. rewrite Hb1, Hb2. congruence.
Qed.

(** X11. Object keys do not collide: two video keys built from aspect
    buckets the handlers can produce are equal only when the buckets are the
    same and the random bytes are the same. *)
Theorem video_key_inj (a1 a2 : string) (k1 k2 : list byte) :
  In a1 aspect_buckets -> In a2 aspect_buckets ->
  video_key a1 k1 = video_key a2 k2 -> a1 = a2 /\ k1 = k2.
Proof.
  unfold aspect_buckets, video_key. simpl.
  intros H1 H2 H. split_ors; subst;
    first [ exfalso; apply (f_equal first_char) in H; cbv in H; discriminate H
          | split; [reflexivity|];
            apply (inj (String.app _)) in H; apply (inj (String.app _)) in H;
            exact (fmt_x_inj _ _ H) ].
Qed.

Lemma video_key_inj_witness :
  In "landscape" aspect_buckets /\
  video_key "landscape" (rand_Read (env None false) 32) = landscape_key /\
  ("landscape" = "landscape" /\
   rand_Read (env None false) 32 = rand_Read (env None false) 32).
Proof.
  split; [left; reflexivity|]. split; [vm_compute; reflexivity|].
  apply (video_key_inj "landscape" "landscape");
    [left; reflexivity | left; reflexivity | reflexivity].
Defined.

(** ** What a successful video upload publishes *)

Lemma video_v2_ok_object E cfg r w :
  http_status (trace (call (VideoV2.handlerUploadVideo E cfg r) w)) = Some 200 ->
  exists videoID p video out data stream0 remuxed,
    uuid_Parse E (PathValue r "videoID") = Some videoID /\
    upload_part r "video" = Some p /\
    db_find videoID (db w) = Some video /\
    ffprobe E (Some (Data p)) = Some out /\
    json_Unmarshal E out = Some data /\
    Streams data !! 0%nat = Some stream0 /\
    ffmpeg E (Some (Data p)) = Some remuxed /\
    let bucket := if (DisplayAspectRatio stream0 =? "16:9")%string then "landscape"
                  else if (DisplayAspectRatio stream0 =? "9:16")%string then "portrait"
                  else "other" in
    let key := video_key bucket (rand_Read E 32) in
    s3 (world (call (VideoV2.handlerUploadVideo E cfg r) w))
      = <[key := ("video/mp4", remuxed)]> (s3 w) /\
    db (world (call (VideoV2.handlerUploadVideo E cfg r) w))
      = db_replace (set_VideoURL video (video_url cfg key)) (db w).
Proof.
  run_call; simpl; intros Hst; try discriminate Hst.
  simplify_eq.
  match goal with H : negb (_ =? "video/mp4")%string = false |- _ =>
    apply video_type_allowed in H; rewrite H in * end.
  repeat match goal with
         | H : context [fs _ !! _] |- _ =>
             progress (simpl in H; rewrite ?lookup_insert_eq in H;
                       rewrite ?lookup_insert_ne in H by apply processing_name_differs;
                       rewrite ?lookup_insert_eq in H)
         end.
  simplify_eq.
  do 7 eexists.
  repeat match goal with |- _ /\ _ => split end; eauto.
Qed.

(** X12. What is published is what the URL names.  After a video upload
    answered with 200, the object under the key of the committed URL has
    content type [video/mp4]; in the second revision it holds the output of
    ffmpeg on the uploaded bytes, in the first the uploaded bytes
    themselves. *)
Theorem video_object_matches_url E cfg r w :
  (http_status (trace (call (VideoV2.handlerUploadVideo E cfg r) w)) = Some 200 ->
   exists videoID p remuxed key,
     uuid_Parse E (PathValue r "videoID") = Some videoID /\
     upload_part r "video" = Some p /\
     ffmpeg E (Some (Data p)) = Some remuxed /\
     s3 (world (call (VideoV2.handlerUploadVideo E cfg r) w)) !! key
       = Some ("video/mp4", remuxed) /\
     db_find videoID (db (world (call (VideoV2.handlerUploadVideo E cfg r) w)))
       ≫= VideoURL = Some (video_url cfg key)) /\
  (http_status (trace (call (VideoV1.handlerUploadVideo E cfg r) w)) = Some 200 ->
   exists videoID p key,
     uuid_Parse E (PathValue r "videoID") = Some videoID /\
     upload_part r "video" = Some p /\
     s3 (world (call (VideoV1.handlerUploadVideo E cfg r) w)) !! key
       = Some ("video/mp4", Data p) /\
     db_find videoID (db (world (call (VideoV1.handlerUploadVideo E cfg r) w)))
       ≫= VideoURL = Some (video_url cfg key)).
Proof.
  split; intros Hok.
  - destruct (video_v2_ok_object E cfg r w Hok)
      as (videoID & p & video & out & data & stream0 & remuxed &
          Hid & Hpart & Hdb & Hprobe & Hjson & Hstream & Hmux & Hs3 & Hdb').
    exists videoID, p, remuxed. eexists.
    rewrite Hs3, Hdb'. repeat split; try eassumption.
    + apply lookup_insert_eq.
    + erewrite db_find_replace; [reflexivity | eassumption | simpl; eauto using db_find_ID].
  - destruct (video_v1_ok_inv E cfg r w Hok)
      as (videoID & userID & parts & p & video & name & bucket &
          Hid & Hauth & Hbody & Hpart & Htype & Hdb & Hown & Htmp & Hout & Hdb' & Hs3 & Htr).
    exists videoID, p, (video_key bucket (rand_Read E 32)).
    rewrite Hs3, Hdb'. repeat split; try assumption.
    + apply lookup_insert_eq.
    + erewrite db_find_replace; [reflexivity | eassumption | simpl; eauto using db_find_ID].
Qed.

Lemma video_object_matches_url_witness :
  let E := env (Some (probe_json "9:16")) false in
  let r := request "alice.jwt" "video/mp4" "video" mp4 in
  (http_status (trace (call (VideoV2.handlerUploadVideo E cfg r) world0)) = Some 200 /\
   exists videoID p remuxed key,
     uuid_Parse E (PathValue r "videoID") = Some videoID /\
     upload_part r "video" = Some p /\
     ffmpeg E (Some (Data p)) = Some remuxed /\
     s3 (world (call (VideoV2.handlerUploadVideo E cfg r) world0)) !! key
       = Some ("video/mp4", remuxed) /\
     db_find videoID (db (world (call (VideoV2.handlerUploadVideo E cfg r) world0)))
       ≫= VideoURL = Some (video_url cfg key)) /\
  (http_status (trace (call (VideoV1.handlerUploadVideo E cfg r) world0)) = Some 200 /\
   exists videoID p key,
     uuid_Parse E (PathValue r "videoID") = Some videoID /\
     upload_part r "video" = Some p /\
     s3 (world (call (VideoV1.handlerUploadVideo E cfg r) world0)) !! key
       = Some ("video/mp4", Data p) /\
     db_find videoID (db (world (call (VideoV1.handlerUploadVideo E cfg r) world0)))
       ≫= VideoURL = Some (video_url cfg key)).
Proof.
  lazy zeta.
  destruct (video_object_matches_url (env (Some (probe_json "9:16")) false) cfg
              (request "alice.jwt" "video/mp4" "video" mp4) world0) as [H2 H1].
  split; (split; [vm_compute; reflexivity|]).
  - apply H2. vm_compute. reflexivity.
  - apply H1. vm_compute. reflexivity.
Defined.

(** ** The size of a video *)

(** X13. The 1 GiB limit at the top of the video handlers is never applied:
    the limited reader is dropped and the body is read through the request's
    own reader.  For a well-formed form on an unlimited reader, an identified
    and authenticated upload of a [video/mp4] file is read and staged whole,
    whatever its size, provided the temporary file can be created and
    written. *)
Theorem video_size_is_not_limited E cfg r w res videoID userID parts p name :
  res = call (VideoV1.handlerUploadVideo E cfg r) w \/
  res = call (VideoV2.handlerUploadVideo E cfg r) w ->
  uuid_Parse E (PathValue r "videoID") = Some videoID ->
  authenticate E cfg r = Some userID ->
  r_form (Body r) = Some parts ->
  r_limit (Body r) = None ->
  upload_part r "video" = Some p ->
  declared_type E p = "video/mp4" ->
  createTemp E = Some name ->
  copy_fails E = false ->
  In (EvReadForm (stored_sizes (ReadForm defaultMaxMemory parts))) (trace res) /\
  In (EvCreateTemp name) (trace res) /\
  In (EvWrite name (part_len p)) (trace res).
Proof.
  intros Hres Hid Hauth Hform Hlimit Hpart Htype Htmp Hcopy.
  assert (Hbody : read_body (Body r) = Some parts).
  { unfold read_body. rewrite Hform, Hlimit. reflexivity. }
  assert (Hallow : negb (mime_ParseMediaType E (PartContentType p) =? "video/mp4")%string
                   = false).
  { unfold declared_type in Htype. rewrite Htype. reflexivity. }
  pose proof Hauth as Hauth'. unfold authenticate in Hauth'.
  destruct (GetBearerToken E (Header r)) as [t|] eqn:Htok; [simpl in Hauth'|discriminate].
  destruct Hres as [-> | ->]; run_call_pruned; simplify_eq; try congruence;
    simpl; repeat split; find_in_list.
Qed.

Lemma video_size_is_not_limited_witness :
  let E := env None false in
  let r := request "alice.jwt" "video/mp4" "video" mp4 in
  let res := call (VideoV2.handlerUploadVideo E cfg r) world0 in
  r_limit (Body r) = None /\
  upload_part r "video" = Some (mkPart "video" "video/mp4" mp4) /\
  In (EvReadForm (stored_sizes (ReadForm defaultMaxMemory [mkPart "video" "video/mp4" mp4])))
     (trace res) /\
  In (EvCreateTemp tmp_name) (trace res) /\
  In (EvWrite tmp_name (part_len (mkPart "video" "video/mp4" mp4))) (trace res).
Proof.
  lazy zeta. split; [reflexivity|]. split; [reflexivity|].
  apply (video_size_is_not_limited (env None false) cfg
           (request "alice.jwt" "video/mp4" "video" mp4) world0 _ vid alice
           [mkPart "video" "video/mp4" mp4] (mkPart "video" "video/mp4" mp4) tmp_name
           (or_intror eq_refl)); reflexivity.
Defined.

(** ** The record store under the video handlers *)

Ltac frame_leaf :=
  simpl; split;
  [ intros id' Hne Hnil
  | intros video id' Hfetch Hdb Hne ];
  simplify_eq; try reflexivity;
  repeat match goal with H : _ \/ _ |- _ => destruct H end; try congruence;
  apply db_find_replace_other; simpl;
  first [ congruence
        | match goal with H : db_find _ _ = Some _ |- _ =>
            rewrite (db_find_ID _ _ _ H); congruence end ].

(** X14. A call of a video handler never changes a row of the record store
    other than the row of the video addressed and the row of the nil
    identifier (which the zero record of a failed fetch addresses, since the
    handlers go on after that failure).  When the fetch succeeds, only the
    row of the video addressed can change. *)
Theorem video_store_frame E cfg r w res videoID :
  res = call (VideoV1.handlerUploadVideo E cfg r) w \/
  res = call (VideoV2.handlerUploadVideo E cfg r) w ->
  uuid_Parse E (PathValue r "videoID") = Some videoID ->
  (forall id', id' <> videoID -> id' <> uuid_Nil ->
     db_find id' (db (world res)) = db_find id' (db w)) /\
  (forall video id',
     getVideo_fails E = false -> db_find videoID (db w) = Some video ->
     id' <> videoID ->
     db_find id' (db (world res)) = db_find id' (db w)).
Proof.
  intros Hres Hid.
  destruct Hres as [-> | ->]; run_call; frame_leaf.
Qed.

Lemma video_store_frame_witness :
  let E := env None false in
  let other := mkVideo 9%N bob None None [] in
  let w := mkWorld [video0; other] ∅ ∅ in
  let r := request "alice.jwt" "video/mp4" "video" mp4 in
  let res := call (VideoV1.handlerUploadVideo E cfg r) w in
  uuid_Parse E (PathValue r "videoID") = Some vid /\
  db_find vid (db (world res)) <> db_find vid (db w) /\
  db_find 9%N (db (world res)) = Some other.
Proof.
  lazy zeta. split; [reflexivity|]. split; [vm_compute; discriminate|].
  rewrite (proj1 (video_store_frame (env None false) cfg
                    (request "alice.jwt" "video/mp4" "video" mp4)
                    (mkWorld [video0; mkVideo 9%N bob None None []] ∅ ∅) _ vid
                    (or_introl eq_refl) eq_refl) 9%N);
    [reflexivity | discriminate | discriminate].
Defined.
